(** * umoci: the [repack] and [insert] commands over the CAS engine

    A shallow embedding of [cmd/umoci/repack.go] and [cmd/umoci/insert.go].
    Both commands are straight-line Go functions that talk to the image
    store through an engine interface, so each is embedded as a finite tree
    of engine calls: a node is one call, its children are indexed by what
    the call returns.  A [handler] gives the calls their meaning on a state;
    the properties that only depend on the command's text are proved for
    every handler, the ones that depend on what the store does are proved
    for handlers that obey the store's contract, and a concrete store
    (blobs and references as finite maps, with a schedule of I/O faults)
    shows the contract can be met. *)

From stdpp Require Import base option list gmap strings.
From Stdlib Require Import ZArith.

Open Scope Z_scope.

(** ** Go values *)

(** A Go [error]: [fmt.Errorf]/[errors.Errorf] build one from a message,
    [errors.Wrap] puts an operation name around a cause. *)
Inductive error : Type :=
| Errorf (msg : string)
| Wrap (cause : error) (msg : string).

(** A call returning [(value, error)] whose value is only looked at when
    the error is nil. *)
Inductive result (A : Type) : Type :=
| Ok (a : A)
| Fail (err : error).
Arguments Ok {A} a.
Arguments Fail {A} err.

(** ** The image data model ([image-spec/specs-go/v1]) *)

Definition MediaTypeImageManifest : string := "application/vnd.oci.image.manifest.v1+json".
Definition MediaTypeImageManifestList : string := "application/vnd.oci.image.manifest.list.v1+json".
Definition MediaTypeImageConfig : string := "application/vnd.oci.image.config.v1+json".
Definition MediaTypeImageLayer : string := "application/vnd.oci.image.layer.v1.tar".

Record Descriptor : Type := mkDescriptor {
  MediaType : string;
  Digest : string;
  Size : Z
}.

(** [time.Time], as seconds since the epoch. *)
Definition Time : Type := Z.

Record History : Type := mkHistory {
  Created : option Time;
  CreatedBy : string;
  Author : string;
  Comment : string;
  EmptyLayer : bool
}.

Record RootFS : Type := mkRootFS {
  Type_ : string;
  DiffIDs : list string
}.

(** [v1.Image]: the fields the commands never look at are kept together in
    [ImageOther]. *)
Record Image : Type := mkImage {
  ImageOther : string;
  rootfs : RootFS;
  history : list History
}.

Record Manifest : Type := mkManifest {
  SchemaVersion : Z;
  Config : Descriptor;
  Layers : list Descriptor
}.

(** What [PutBlobJSON] is given to serialise. *)
Inductive JSONData : Type :=
| JSONImage (config : Image)
| JSONManifest (manifest : Manifest)
| JSONManifestList (manifests : list Descriptor).

(** ** Opaque handles of the collaborators *)

Record Engine : Type := mkEngine { engine_root : string }.
Record File : Type := mkFile { file_name : string }.
Record Reader : Type := mkReader { reader_bytes : string }.
Definition DirectoryHierarchy : Type := list string.
Definition Keywords : Type := list string.

Inductive DifferenceType : Type := Missing | Extra | Modified.
Record InodeDelta : Type := mkInodeDelta {
  delta_path : string;
  delta_type : DifferenceType
}.

(** [cas.Blob]: [Data] is an [interface{}] that the caller type-asserts. *)
Inductive BlobData : Type :=
| DataManifest (manifest : Manifest)
| DataImage (config : Image)
| DataManifestList (manifests : list Descriptor)
| DataReader (layer : Reader).

Record Blob : Type := mkBlob {
  BlobMediaType : string;
  Data : BlobData
}.

Inductive Field : Type :=
| FStr (s : string)
| FInt (n : Z).

Inductive Level : Type := Debug | Info.

(** ** Programs over a signature of calls *)

Section Prog.
Context {E : Type -> Type}.

Inductive Prog (R : Type) : Type :=
| Ret (r : R)
| Vis (X : Type) (e : E X) (k : X -> Prog R).

Arguments Ret {R} r.
Arguments Vis {R X} e k.

Fixpoint bind {A B : Type} (p : Prog A) (f : A -> Prog B) : Prog B :=
  match p with
  | Ret a => f a
  | Vis e k => Vis e (fun x => bind (k x) f)
  end.

(** Go's [defer c]: [c] runs when the rest of the function returns,
    whatever it returns; what [c] returns is dropped. *)
Definition defer {X R : Type} (c : E X) (body : Prog R) : Prog R :=
  bind body (fun r => Vis c (fun _ => Ret r)).

(** One engine call as it happened: the call, its answer, the state it
    left. *)
Record step (S : Type) : Type := Step {
  step_X : Type;
  step_call : E step_X;
  step_resp : step_X;
  step_post : S
}.
Arguments Step {S step_X} step_call step_resp step_post.
Arguments step_post {S} s.

Definition handler (S : Type) : Type := forall X : Type, E X -> S -> X * S.

Fixpoint run {S R : Type} (h : handler S) (p : Prog R) (s : S) : R * list (step S) :=
  match p with
  | Ret r => (r, [])
  | Vis e k =>
      let '(x, s') := h _ e s in
      let '(r, tr) := run h (k x) s' in
      (r, Step e x s' :: tr)
  end.

(** The states the store goes through, the initial one first: an
    interrupted run stops in one of them. *)
Definition states {S : Type} (s : S) (tr : list (step S)) : list S :=
  s :: map step_post tr.

(** The state a trace ends in. *)
Fixpoint final {S : Type} (s : S) (tr : list (step S)) : S :=
  match tr with
  | [] => s
  | st :: tr => final (step_post st) tr
  end.
End Prog.

Arguments Prog E R : clear implicits.
Arguments Ret {E R} r.
Arguments Vis {E R X} e k.
Arguments step E S : clear implicits.
Arguments Step {E S step_X} step_call step_resp step_post.
Arguments step_X {E S} s.
Arguments step_call {E S} s.
Arguments step_resp {E S} s.
Arguments step_post {E S} s.
Arguments handler E S : clear implicits.

Notation "x <~ e ;; k" := (Vis e (fun x => k))
  (at level 100, e at next level, right associativity, only parsing).

(** ** [repack] (cmd/umoci/repack.go) *)

(** [cli.Context]: the flags given on the command line; [ctx.String] of a
    flag that was not given is the empty string. *)
Definition ctx_String (ctx : gmap string string) (name : string) : string :=
  default "" (ctx !! name).

(** [filepath.Join] of two non-empty elements (its path cleaning is left
    out: the joined name is only handed to the file system). *)
Definition filepath_Join (dir name : string) : string := dir +:+ "/" +:+ name.

(** The [image/generator] package is not among the sources: its three
    functions that [repack] calls are modelled from the spec and from the
    comments at their call sites. *)
Module generator.
(** Modelled from the spec: the generator is the working copy of a config
    (§3, §4.6). *)
Record Generator : Type := mkGenerator { image : Image }.

(** Modelled from the spec: the working copy starts as the base config
    (§4.6); no way for it to fail is described. *)
Definition NewFromImage (image : Image) : result Generator :=
  Ok {| image := image |}.

(** Modelled from the spec: the new layer's entry goes at the end of the
    ordered [rootfs.diffIDs] (§3, §4.6); the call site says "Append our new
    layer to the set of DiffIDs". *)
Definition AddRootfsDiffID (g : Generator) (diffid : string) : Generator :=
  {| image :=
       {| ImageOther := ImageOther (image g);
          rootfs := {| Type_ := Type_ (rootfs (image g));
                       DiffIDs := DiffIDs (rootfs (image g)) ++ [diffid] |};
          history := history (image g) |} |}.

(** Modelled from the spec: the working copy as it stands (§4.6). *)
Definition Image (g : Generator) : Image := image g.
End generator.

Module Repack.

(** The calls [repack] makes, each with the type of what it returns. *)
Inductive call : Type -> Type :=
| cas_Open (path : string) : call (result Engine)
| engine_Close (engine : Engine) : call (option error)
| engine_GetReference (engine : Engine) (name : string) : call (result Descriptor)
| os_Open (name : string) : call (result File)
| mfh_Close (mfh : File) : call (option error)
| mtree_ParseSpec (r : File) : call (result DirectoryHierarchy)
| mtree_CollectUsedKeywords (dh : DirectoryHierarchy) : call Keywords
| mtree_Check (root : string) (dh : DirectoryHierarchy) (keywords : Keywords)
    : call (result (list InodeDelta))
| layerdiff_GenerateLayer (path : string) (deltas : list InodeDelta) : call (result Reader)
| reader_Close (reader : Reader) : call (option error)
| engine_PutBlob (engine : Engine) (reader : Reader) : call (string * Z * option error)
| cas_FromDescriptor (engine : Engine) (descriptor : Descriptor) : call (result Blob)
| blob_Close (blob : Blob) : call (option error)
| engine_PutBlobJSON (engine : Engine) (data : JSONData) : call (string * Z * option error)
| engine_DeleteReference (engine : Engine) (name : string) : call (option error)
| engine_PutReference (engine : Engine) (name : string) (descriptor : Descriptor)
    : call (option error)
| logrus (level : Level) (fields : list (string * Field)) (msg : string) : call unit.

Definition repack (rootfsName : string) (ctx : gmap string string)
  : Prog call (option error) :=
  let imagePath := ctx_String ctx "image" in
  if decide (imagePath = "") then Ret (Some (Errorf "image path cannot be empty")) else
  let bundlePath := ctx_String ctx "bundle" in
  if decide (bundlePath = "") then Ret (Some (Errorf "bundle path cannot be empty")) else
  let fromName := ctx_String ctx "from" in
  if decide (fromName = "") then Ret (Some (Errorf "reference name cannot be empty")) else
  (* Get a reference to the CAS. *)
  opened <~ cas_Open imagePath ;;
  match opened with Fail err => Ret (Some err) | Ok engine =>
  defer (engine_Close engine) (
  got <~ engine_GetReference engine fromName ;;
  match got with Fail err => Ret (Some err) | Ok fromDescriptor =>
  if decide (MediaType fromDescriptor <> MediaTypeImageManifest) then
    Ret (Some (Errorf ("--from descriptor does not point to v1.MediaTypeImageManifest: not implemented: "
                       +:+ MediaType fromDescriptor)))
  else
  let mtreePath := filepath_Join bundlePath (Digest fromDescriptor +:+ ".mtree") in
  let fullRootfsPath := filepath_Join bundlePath rootfsName in
  _ <~ logrus Debug [("image", FStr imagePath); ("bundle", FStr bundlePath);
                     ("ref", FStr fromName); ("rootfs", FStr rootfsName);
                     ("mtree", FStr mtreePath)] "umoci: repacking OCI image" ;;
  fh <~ os_Open mtreePath ;;
  match fh with Fail err => Ret (Some err) | Ok mfh =>
  defer (mfh_Close mfh) (
  parsed <~ mtree_ParseSpec mfh ;;
  match parsed with Fail err => Ret (Some err) | Ok spec =>
  keywords <~ mtree_CollectUsedKeywords spec ;;
  checked <~ mtree_Check fullRootfsPath spec keywords ;;
  match checked with Fail err => Ret (Some err) | Ok diffs =>
  generated <~ layerdiff_GenerateLayer fullRootfsPath diffs ;;
  match generated with Fail err => Ret (Some err) | Ok reader =>
  defer (reader_Close reader) (
  put <~ engine_PutBlob engine reader ;;
  let '(layerDigest, layerSize, err) := put in
  match err with Some err => Ret (Some err) | None =>
  _ <~ reader_Close reader ;;
  let layerDescriptor :=
    {| MediaType := MediaTypeImageLayer; Digest := layerDigest; Size := layerSize |} in
  mb <~ cas_FromDescriptor engine fromDescriptor ;;
  match mb with Fail err => Ret (Some err) | Ok manifestBlob =>
  defer (blob_Close manifestBlob) (
  match Data manifestBlob with
  | DataManifest manifest =>
    (* We also need to update the config. *)
    cb <~ cas_FromDescriptor engine (Config manifest) ;;
    match cb with Fail err => Ret (Some err) | Ok configBlob =>
    defer (blob_Close configBlob) (
    match Data configBlob with
    | DataImage config =>
      match generator.NewFromImage config with Fail err => Ret (Some err) | Ok g =>
      (* Append our new layer to the set of DiffIDs. *)
      let g := generator.AddRootfsDiffID g layerDigest in
      (* Update config and create a new blob for it. *)
      let config := generator.Image g in
      put <~ engine_PutBlobJSON engine (JSONImage config) ;;
      let '(newConfigDigest, newConfigSize, err) := put in
      match err with Some err => Ret (Some err) | None =>
      (* Update the manifest to include the new layer, and also point at
         the new config. Then create a new blob for it. *)
      let manifest :=
        {| SchemaVersion := SchemaVersion manifest;
           Config := {| MediaType := MediaType (Config manifest);
                        Digest := newConfigDigest;
                        Size := newConfigSize |};
           Layers := Layers manifest ++ [layerDescriptor] |} in
      put <~ engine_PutBlobJSON engine (JSONManifest manifest) ;;
      let '(newManifestDigest, newManifestSize, err) := put in
      (* Now create a new reference. *)
      let newDescriptor :=
        {| MediaType := MediaTypeImageManifest;
           Digest := newManifestDigest;
           Size := newManifestSize |} in
      _ <~ logrus Info [("mediatype", FStr (MediaType newDescriptor));
                        ("digest", FStr (Digest newDescriptor));
                        ("size", FInt (Size newDescriptor))] "created new image" ;;
      let tagName := ctx_String ctx "tag" in
      if decide (tagName = "") then Ret None else
      (* We have to clobber the old reference. *)
      deleted <~ engine_DeleteReference engine tagName ;;
      match deleted with Some err => Ret (Some err) | None =>
      put <~ engine_PutReference engine tagName newDescriptor ;;
      match put with Some err => Ret (Some err) | None =>
      Ret None
      end end end end
    | _ =>
      (* Should not be reached. *)
      Ret (Some (Errorf ("config blob type not implemented: " +:+ BlobMediaType configBlob)))
    end)
    end
  | _ =>
    (* Should never be reached. *)
    Ret (Some (Errorf ("manifest blob type not implemented: " +:+ BlobMediaType manifestBlob)))
  end)
  end end)
  end end end)
  end end)
  end.

End Repack.

(** ** [insert] (cmd/umoci/insert.go) *)

(** [casext.DescriptorPath]: the walk from a root descriptor down to the
    descriptor it designates; a walk is never empty. *)
Record DescriptorPath : Type := mkDescriptorPath {
  Walk_root : Descriptor;
  Walk_rest : list Descriptor
}.

Definition Root (p : DescriptorPath) : Descriptor := Walk_root p.
Definition Descriptor_ (p : DescriptorPath) : Descriptor :=
  List.last (Walk_rest p) (Walk_root p).

(** [mutate.Mutator]: the base it was opened on and its in-memory working
    copy.  [insert] only passes it around. *)
Record Mutator : Type := mkMutator {
  source : DescriptorPath;
  manifest : Manifest;
  config : Image;
  pending : list (Reader * History)
}.

Record UmociMeta : Type := mkUmociMeta {
  Version : string;
  MapOptions : list string
}.

Definition set_Author (val : string) (h : History) : History :=
  {| Created := Created h; CreatedBy := CreatedBy h; Author := val;
     Comment := Comment h; EmptyLayer := EmptyLayer h |}.
Definition set_Comment (val : string) (h : History) : History :=
  {| Created := Created h; CreatedBy := CreatedBy h; Author := Author h;
     Comment := val; EmptyLayer := EmptyLayer h |}.
Definition set_Created (val : Time) (h : History) : History :=
  {| Created := Some val; CreatedBy := CreatedBy h; Author := Author h;
     Comment := Comment h; EmptyLayer := EmptyLayer h |}.
Definition set_CreatedBy (val : string) (h : History) : History :=
  {| Created := Created h; CreatedBy := val; Author := Author h;
     Comment := Comment h; EmptyLayer := EmptyLayer h |}.

Module Insert.

(** What the [uxRemap] wrapper and the [Before] hook leave in
    [ctx.App.Metadata] before [insert] runs: the four entries [insert]
    type-asserts without a test, and the map of the optional ones. *)
Record Context : Type := mkContext {
  image_path : string;   (* Metadata["--image-path"] *)
  image_tag : string;    (* Metadata["--image-tag"] *)
  insertFile : string;   (* Metadata["insertFile"] *)
  insertPath : string;   (* Metadata["insertPath"] *)
  Metadata : gmap string string
}.

Inductive call : Type -> Type :=
| dir_Open (path : string) : call (result Engine)
| engine_Close (engine : Engine) : call (option error)
| engineExt_ResolveReference (engineExt : Engine) (refname : string)
    : call (result (list DescriptorPath))
| mutate_New (engine : Engine) (src : DescriptorPath) : call (result Mutator)
| parseIdmapOptions (meta : UmociMeta) (ctx : Context) : call (UmociMeta * option error)
| layer_GenerateInsertLayer (root target : string) (opt : list string) : call Reader
| reader_Close (reader : Reader) : call (option error)
| time_Now : call Time
| time_Parse (layout value : string) : call (result Time)
| mutator_Add (mutator : Mutator) (r : Reader) (history : History)
    : call (Mutator * option error)
| mutator_Commit (mutator : Mutator) : call (Mutator * result DescriptorPath)
| log_Infof (msg : string) : call unit
| engineExt_UpdateReference (engineExt : Engine) (refname : string) (descriptor : Descriptor)
    : call (option error).

(** [UmociMetaVersion] and [igen.ISO8601] are constants declared outside
    the two source files; they are taken as arguments. *)
Definition insert (UmociMetaVersion ISO8601 : string) (ctx : Context)
  : Prog call (option error) :=
  let imagePath := image_path ctx in
  let tagName := image_tag ctx in
  (* Get a reference to the CAS. *)
  opened <~ dir_Open imagePath ;;
  match opened with Fail err => Ret (Some (Wrap err "open CAS")) | Ok engine =>
  let engineExt := engine in
  defer (engine_Close engine) (
  resolved <~ engineExt_ResolveReference engineExt tagName ;;
  match resolved with Fail err => Ret (Some (Wrap err "get descriptor")) | Ok descriptorPaths =>
  match descriptorPaths with
  | [] => Ret (Some (Errorf ("tag not found: " +:+ tagName)))
  | _ :: _ :: _ => Ret (Some (Errorf ("tag is ambiguous: " +:+ tagName)))
  | [descriptorPath] =>
  (* Create the mutator. *)
  new <~ mutate_New engine descriptorPath ;;
  match new with
  | Fail err => Ret (Some (Wrap err "create mutator for base image"))
  | Ok mutator =>
  let insertFile := insertFile ctx in
  let insertPath := insertPath ctx in
  let meta := {| Version := UmociMetaVersion; MapOptions := [] |} in
  (* Parse and set up the mapping options. *)
  parsed <~ parseIdmapOptions meta ctx ;;
  let '(meta, err) := parsed in
  match err with Some err => Ret (Some err) | None =>
  reader <~ layer_GenerateInsertLayer insertFile insertPath (MapOptions meta) ;;
  defer (reader_Close reader) (
  created <~ time_Now ;;
  let history :=
    {| Comment := ""; Created := Some created; CreatedBy := "umoci insert";
       Author := ""; EmptyLayer := false |} in
  let history :=
    match Metadata ctx !! "--history.author" with
    | Some val => set_Author val history | None => history end in
  let history :=
    match Metadata ctx !! "--history.comment" with
    | Some val => set_Comment val history | None => history end in
  let rest (history : History) : Prog call (option error) :=
    let history :=
      match Metadata ctx !! "--history.created_by" with
      | Some val => set_CreatedBy val history | None => history end in
    added <~ mutator_Add mutator reader history ;;
    let '(mutator, err) := added in
    match err with Some err => Ret (Some (Wrap err "add diff layer")) | None =>
    committed <~ mutator_Commit mutator ;;
    let '(mutator, res) := committed in
    match res with
    | Fail err => Ret (Some (Wrap err "commit mutated image"))
    | Ok newDescriptorPath =>
    _ <~ log_Infof ("new image manifest created: " +:+ Digest (Root newDescriptorPath)
                    +:+ "->" +:+ Digest (Descriptor_ newDescriptorPath)) ;;
    updated <~ engineExt_UpdateReference engineExt tagName (Root newDescriptorPath) ;;
    match updated with Some err => Ret (Some (Wrap err "add new tag")) | None =>
    _ <~ log_Infof ("updated tag for image manifest: " +:+ tagName) ;;
    Ret None
    end end end in
  match Metadata ctx !! "--history.created" with
  | Some val =>
    parsed <~ time_Parse ISO8601 val ;;
    match parsed with
    | Fail err => Ret (Some (Wrap err "parsing --history.created"))
    | Ok created => rest (set_Created created history)
    end
  | None => rest history
  end)
  end end end end)
  end.

End Insert.

(** ** The image store *)

Module Model.

Inductive BlobContent : Type :=
| RawBytes (bytes : string)
| JSON (data : JSONData).

(** The collaborators the spec leaves outside the core (§1): the hash
    that names a blob, the file system of the bundle, the metadata
    snapshot comparison, the layer packager, the clock and the command
    line helpers. *)
Record Collaborators : Type := mkCollaborators {
  digest_of : BlobContent -> string;
  size_of : BlobContent -> Z;
  diffid_of : string -> string;
  open_file : string -> result File;
  parse_spec : File -> result DirectoryHierarchy;
  used_keywords : DirectoryHierarchy -> Keywords;
  check : string -> DirectoryHierarchy -> Keywords -> result (list InodeDelta);
  generate_layer : string -> list InodeDelta -> result Reader;
  idmap_options : UmociMeta -> Insert.Context -> UmociMeta * option error;
  insert_layer : string -> string -> list string -> Reader;
  now : Time;
  parse_time : string -> string -> result Time
}.

(** Modelled from the spec: the Blob Store and the Reference Store of
    §4.1 and §4.2, which live in the engine packages outside the two
    source files.  Blobs are keyed by digest, references by name, in two
    independent name spaces.  [faults] is the schedule of I/O errors the
    next store operations will meet (§7: an I/O error is surfaced, never
    retried); a write is atomic, so an operation that meets a fault
    leaves blobs and references as they were. *)
Record Store : Type := mkStore {
  blobs : gmap string BlobContent;
  refs : gmap string Descriptor;
  faults : list (option error)
}.

(** Modelled from the spec: the error taxonomy of §7. *)
Definition ErrNotFound : error := Errorf "NotFound".
Definition ErrDigestMismatch : error := Errorf "DigestMismatch".
Definition ErrUnsupportedMediaType : error := Errorf "UnsupportedMediaType".
Definition ErrInvalidState : error := Errorf "InvalidState".

Definition set_faults (fs : list (option error)) (w : Store) : Store :=
  {| blobs := blobs w; refs := refs w; faults := fs |}.
Definition set_blobs (bs : gmap string BlobContent) (w : Store) : Store :=
  {| blobs := bs; refs := refs w; faults := faults w |}.
Definition set_refs (rs : gmap string Descriptor) (w : Store) : Store :=
  {| blobs := blobs w; refs := rs; faults := faults w |}.

(** Modelled from the spec: whether the next store operation will meet an
    I/O error (§7). *)
Definition fault_pending (w : Store) : bool :=
  match faults w with
  | Some _ :: _ => true
  | _ => false
  end.

(** Modelled from the spec: one store operation under the fault schedule;
    an I/O error is surfaced and the operation does nothing else (§5, §7). *)
Definition io {A : Type} (w : Store) (fail : error -> A) (ok : Store -> A * Store)
  : A * Store :=
  match faults w with
  | [] => ok w
  | None :: fs => ok (set_faults fs w)
  | Some err :: fs => (fail err, set_faults fs w)
  end.

Section Engine.
Variable c : Collaborators.

(** Modelled from the spec: [Put] names the bytes by their digest and
    skips the write when the digest is already there (§4.1). *)
Definition Put (content : BlobContent) (w : Store) : string * Z * Store :=
  let digest := digest_of c content in
  match blobs w !! digest with
  | Some _ => (digest, size_of c content, w)
  | None => (digest, size_of c content, set_blobs (<[digest := content]> (blobs w)) w)
  end.

(** Modelled from the spec: [GetBlob] fails [NotFound] on an absent
    digest, refuses bytes that do not hash to their key, and decodes by
    media type, failing on an unrecognised one (§4.1, §4.3). *)
Definition GetBlob (d : Descriptor) (w : Store) : result Blob :=
  match blobs w !! Digest d with
  | None => Fail ErrNotFound
  | Some content =>
    if decide (digest_of c content <> Digest d) then Fail ErrDigestMismatch else
    if decide (MediaType d = MediaTypeImageManifest) then
      match content with
      | JSON (JSONManifest m) => Ok {| BlobMediaType := MediaType d; Data := DataManifest m |}
      | _ => Fail (Errorf "decode manifest")
      end
    else if decide (MediaType d = MediaTypeImageConfig) then
      match content with
      | JSON (JSONImage i) => Ok {| BlobMediaType := MediaType d; Data := DataImage i |}
      | _ => Fail (Errorf "decode config")
      end
    else if decide (MediaType d = MediaTypeImageManifestList) then
      match content with
      | JSON (JSONManifestList ms) =>
          Ok {| BlobMediaType := MediaType d; Data := DataManifestList ms |}
      | _ => Fail (Errorf "decode manifest list")
      end
    else if decide (MediaType d = MediaTypeImageLayer) then
      match content with
      | RawBytes bytes =>
          Ok {| BlobMediaType := MediaType d; Data := DataReader (mkReader bytes) |}
      | _ => Fail (Errorf "decode layer")
      end
    else Fail ErrUnsupportedMediaType
  end.

(** Modelled from the spec: [Get] fails [NotFound] on an absent name
    (§4.2). *)
Definition GetReference (name : string) (w : Store) : result Descriptor :=
  match refs w !! name with
  | Some d => Ok d
  | None => Fail ErrNotFound
  end.
(** Modelled from the spec: [Put] creates or replaces the name (§4.2). *)
Definition PutReference (name : string) (d : Descriptor) (w : Store) : Store :=
  set_refs (<[name := d]> (refs w)) w.
(** Modelled from the spec: [Delete] removes the name, and deleting an
    absent name is not an error (§4.2). *)
Definition DeleteReference (name : string) (w : Store) : Store :=
  set_refs (delete name (refs w)) w.

(** Modelled from the spec: the engine API as [repack] calls it, composed
    of the two stores (§4.3) and of the collaborators (§1). *)
Definition repack_handler : handler Repack.call Store :=
  fun X e w =>
    match e in Repack.call X return X * Store with
    | Repack.cas_Open path =>
        io w Fail (fun w => (Ok (mkEngine path), w))
    | Repack.engine_Close _ => (None, w)
    | Repack.engine_GetReference _ name =>
        io w Fail (fun w => (GetReference name w, w))
    | Repack.os_Open name => (open_file c name, w)
    | Repack.mfh_Close _ => (None, w)
    | Repack.mtree_ParseSpec r => (parse_spec c r, w)
    | Repack.mtree_CollectUsedKeywords dh => (used_keywords c dh, w)
    | Repack.mtree_Check root dh kw => (check c root dh kw, w)
    | Repack.layerdiff_GenerateLayer path deltas => (generate_layer c path deltas, w)
    | Repack.reader_Close _ => (None, w)
    | Repack.engine_PutBlob _ reader =>
        io w (fun err => ("", -1, Some err))
          (fun w => let '(digest, size, w) := Put (RawBytes (reader_bytes reader)) w in
                    ((digest, size, None), w))
    | Repack.cas_FromDescriptor _ d =>
        io w Fail (fun w => (GetBlob d w, w))
    | Repack.blob_Close _ => (None, w)
    | Repack.engine_PutBlobJSON _ data =>
        io w (fun err => ("", -1, Some err))
          (fun w => let '(digest, size, w) := Put (JSON data) w in
                    ((digest, size, None), w))
    | Repack.engine_DeleteReference _ name =>
        io w Some (fun w => (None, DeleteReference name w))
    | Repack.engine_PutReference _ name d =>
        io w Some (fun w => (None, PutReference name d w))
    | Repack.logrus _ _ _ => (tt, w)
    end.

(** Modelled from the spec: [ResolveReference] gives every manifest chain
    the name designates: none when the name is absent, one through each
    entry of a manifest list, exactly one otherwise (§4.3). *)
Definition ResolveReference (name : string) (w : Store) : result (list DescriptorPath) :=
  match refs w !! name with
  | None => Ok []
  | Some d =>
    if decide (MediaType d = MediaTypeImageManifestList) then
      match GetBlob d w with
      | Fail err => Fail err
      | Ok blob =>
        match Data blob with
        | DataManifestList ms =>
            Ok (map (fun m => {| Walk_root := d; Walk_rest := [m] |}) ms)
        | _ => Fail ErrUnsupportedMediaType
        end
      end
    else Ok [ {| Walk_root := d; Walk_rest := [] |} ]
  end.

(** Modelled from the spec: the Image Mutator, which lives in the
    [mutate] package outside the two source files.  [New] opens the base,
    a single manifest with its config, and fails [InvalidState] on
    anything else (§4.6, §7). *)
Definition New (src : DescriptorPath) (w : Store) : result Mutator :=
  if decide (Walk_rest src <> [] \/ MediaType (Descriptor_ src) <> MediaTypeImageManifest)
  then Fail ErrInvalidState else
  match GetBlob (Descriptor_ src) w with
  | Fail err => Fail err
  | Ok mblob =>
    match Data mblob with
    | DataManifest m =>
      match GetBlob (Config m) w with
      | Fail err => Fail err
      | Ok cblob =>
        match Data cblob with
        | DataImage cfg =>
            Ok {| source := src; manifest := m; config := cfg; pending := [] |}
        | _ => Fail ErrUnsupportedMediaType
        end
      end
    | _ => Fail ErrUnsupportedMediaType
    end
  end.

(** Modelled from the spec: the descriptor of a layer stream, its digest
    being that of the stream as stored (§3, §4.5). *)
Definition layer_descriptor (r : Reader) : Descriptor :=
  {| MediaType := MediaTypeImageLayer;
     Digest := digest_of c (RawBytes (reader_bytes r));
     Size := size_of c (RawBytes (reader_bytes r)) |}.

(** Modelled from the spec: [Add] extends the in-memory working copy of
    config and manifest by the layer, its diffID and the history entry,
    and writes nothing (§4.6, §4.7). *)
Definition Add (m : Mutator) (r : Reader) (h : History) : Mutator :=
  {| source := source m;
     manifest := {| SchemaVersion := SchemaVersion (manifest m);
                    Config := Config (manifest m);
                    Layers := Layers (manifest m) ++ [layer_descriptor r] |};
     config := {| ImageOther := ImageOther (config m);
                  rootfs := {| Type_ := Type_ (rootfs (config m));
                               DiffIDs := DiffIDs (rootfs (config m))
                                          ++ [diffid_of c (reader_bytes r)] |};
                  history := history (config m) ++ [h] |};
     pending := pending m ++ [(r, h)] |}.

(** Modelled from the spec: step (1) of [Commit], the layer blobs not yet
    written, in the order they were added (§4.6). *)
Fixpoint write_layers (layers : list (Reader * History)) (w : Store)
  : option error * Store :=
  match layers with
  | [] => (None, w)
  | (r, _) :: layers =>
    let '(err, w) :=
      io w Some (fun w => let '(_, _, w) := Put (RawBytes (reader_bytes r)) w in
                          (None, w)) in
    match err with
    | Some err => (Some err, w)
    | None => write_layers layers w
    end
  end.

(** Modelled from the spec: [Commit] writes the pending layer blobs, then
    the config blob, then the manifest blob that points at the new config,
    and returns the walk of the new manifest; a failed write abandons the
    mutation (§4.6). *)
Definition Commit (m : Mutator) (w : Store) : Mutator * result DescriptorPath * Store :=
  let '(err, w) := write_layers (pending m) w in
  match err with
  | Some err => (m, Fail err, w)
  | None =>
    let '(cres, w) :=
      io w Fail (fun w => let '(digest, size, w) := Put (JSON (JSONImage (config m))) w in
                          (Ok (digest, size), w)) in
    match cres with
    | Fail err => (m, Fail err, w)
    | Ok (cdigest, csize) =>
      let manifest' :=
        {| SchemaVersion := SchemaVersion (manifest m);
           Config := {| MediaType := MediaTypeImageConfig;
                        Digest := cdigest; Size := csize |};
           Layers := Layers (manifest m) |} in
      let '(mres, w) :=
        io w Fail (fun w => let '(digest, size, w) := Put (JSON (JSONManifest manifest')) w in
                            (Ok (digest, size), w)) in
      match mres with
      | Fail err => (m, Fail err, w)
      | Ok (mdigest, msize) =>
        let path :=
          {| Walk_root := {| MediaType := MediaTypeImageManifest;
                             Digest := mdigest; Size := msize |};
             Walk_rest := [] |} in
        ({| source := path; manifest := manifest'; config := config m; pending := [] |},
         Ok path, w)
      end
    end
  end.

(** Modelled from the spec: the engine API as [insert] calls it;
    [UpdateReference] is the Reference Store's atomic create-or-replace
    (§4.2, §6). *)
Definition insert_handler : handler Insert.call Store :=
  fun X e w =>
    match e in Insert.call X return X * Store with
    | Insert.dir_Open path =>
        io w Fail (fun w => (Ok (mkEngine path), w))
    | Insert.engine_Close _ => (None, w)
    | Insert.engineExt_ResolveReference _ name =>
        io w Fail (fun w => (ResolveReference name w, w))
    | Insert.mutate_New _ src =>
        io w Fail (fun w => (New src w, w))
    | Insert.parseIdmapOptions meta ctx => (idmap_options c meta ctx, w)
    | Insert.layer_GenerateInsertLayer root target opt => (insert_layer c root target opt, w)
    | Insert.reader_Close _ => (None, w)
    | Insert.time_Now => (now c, w)
    | Insert.time_Parse layout value => (parse_time c layout value, w)
    | Insert.mutator_Add m r h => ((Add m r h, None), w)
    | Insert.mutator_Commit m => Commit m w
    | Insert.log_Infof _ => (tt, w)
    | Insert.engineExt_UpdateReference _ name d =>
        io w Some (fun w => (None, PutReference name d w))
    end.
End Engine.

End Model.

(** ** Reading a run *)

(** What a run of [repack] did to the store, read off its calls: the
    blobs it wrote, the references it wrote, the blobs it decoded, each
    with what the engine answered. *)
Inductive RefOp : Type :=
| RefDelete (name : string)
| RefPut (name : string) (d : Descriptor).

Definition blob_write_of {S : Type} (st : step Repack.call S)
  : option (Model.BlobContent * (string * Z * option error)) :=
  match st with
  | Step e x _ =>
    match e in Repack.call X return X -> option _ with
    | Repack.engine_PutBlob _ r => fun x => Some (Model.RawBytes (reader_bytes r), x)
    | Repack.engine_PutBlobJSON _ d => fun x => Some (Model.JSON d, x)
    | _ => fun _ => None
    end x
  end.

Definition ref_write_of {S : Type} (st : step Repack.call S) : option (RefOp * option error) :=
  match st with
  | Step e x _ =>
    match e in Repack.call X return X -> option _ with
    | Repack.engine_DeleteReference _ name => fun x => Some (RefDelete name, x)
    | Repack.engine_PutReference _ name d => fun x => Some (RefPut name d, x)
    | _ => fun _ => None
    end x
  end.

Definition read_of {S : Type} (st : step Repack.call S) : option (Descriptor * result Blob) :=
  match st with
  | Step e x _ =>
    match e in Repack.call X return X -> option _ with
    | Repack.cas_FromDescriptor _ d => fun x => Some (d, x)
    | _ => fun _ => None
    end x
  end.

Definition get_reference_of {S : Type} (st : step Repack.call S)
  : option (string * result Descriptor) :=
  match st with
  | Step e x _ =>
    match e in Repack.call X return X -> option _ with
    | Repack.engine_GetReference _ name => fun x => Some (name, x)
    | _ => fun _ => None
    end x
  end.

Definition blob_writes {S : Type} (tr : list (step Repack.call S)) := omap blob_write_of tr.
Definition ref_writes {S : Type} (tr : list (step Repack.call S)) := omap ref_write_of tr.
Definition reads {S : Type} (tr : list (step Repack.call S)) := omap read_of tr.
Definition get_references {S : Type} (tr : list (step Repack.call S)) :=
  omap get_reference_of tr.

Inductive kind : Type := KLayer | KConfig | KManifest | KManifestList.

Definition kind_of (w : Model.BlobContent * (string * Z * option error)) : kind :=
  match w.1 with
  | Model.RawBytes _ => KLayer
  | Model.JSON (JSONImage _) => KConfig
  | Model.JSON (JSONManifest _) => KManifest
  | Model.JSON (JSONManifestList _) => KManifestList
  end.

(** The effect of one reference write on the reference name space: none
    when the engine reported an error. *)
Definition apply_ref_write (rs : gmap string Descriptor) (op : RefOp * option error)
  : gmap string Descriptor :=
  match op with
  | (_, Some _) => rs
  | (RefDelete name, None) => delete name rs
  | (RefPut name d, None) => <[name := d]> rs
  end.

(** The config and the manifest [repack] builds from the base ones, the
    new layer's digest and size, and the digest and size of the new
    config. *)
Definition repack_config (config : Image) (layerDigest : string) : Image :=
  generator.Image (generator.AddRootfsDiffID (generator.mkGenerator config) layerDigest).

Definition repack_manifest (manifest : Manifest) (layerDigest : string) (layerSize : Z)
    (newConfigDigest : string) (newConfigSize : Z) : Manifest :=
  {| SchemaVersion := SchemaVersion manifest;
     Config := {| MediaType := MediaType (Config manifest);
                  Digest := newConfigDigest; Size := newConfigSize |};
     Layers := Layers manifest
               ++ [ {| MediaType := MediaTypeImageLayer;
                       Digest := layerDigest; Size := layerSize |} ] |}.

(** A run of [repack] that decoded the base [manifest] and [config],
    wrote a layer blob named [ld] of size [ls], then the config built from
    them, named [cd] of size [cs], then the manifest built from them. *)
Definition repack_wrote {S : Type} (tr : list (step Repack.call S))
    (manifest : Manifest) (config : Image) (ld : string) (ls : Z) (cd : string) (cs : Z)
  : Prop :=
  exists fromDescriptor mblob cblob layer mresp,
    reads tr = [(fromDescriptor, Ok mblob); (Config manifest, Ok cblob)]
    /\ Data mblob = DataManifest manifest /\ Data cblob = DataImage config
    /\ blob_writes tr =
       [ (Model.RawBytes layer, (ld, ls, None));
         (Model.JSON (JSONImage (repack_config config ld)), (cd, cs, None));
         (Model.JSON (JSONManifest (repack_manifest manifest ld ls cd cs)), mresp) ].

(** The count the spec compares with the number of layers. *)
Definition nonempty_history (hs : list History) : list History :=
  filter (fun h => EmptyLayer h = false) hs.

(** What a run of [insert] did: its calls to the mutator and the
    reference update, and apart from them the clock and parser calls that
    feed the history entry. *)
Inductive InsertOp : Type :=
| OpNew (src : DescriptorPath) (res : result Mutator)
| OpAdd (m : Mutator) (r : Reader) (h : History) (res : Mutator * option error)
| OpCommit (m : Mutator) (res : Mutator * result DescriptorPath)
| OpUpdate (name : string) (d : Descriptor) (res : option error).

Inductive ClockOp : Type :=
| OpNow (t : Time)
| OpParse (layout value : string) (res : result Time).

Definition insert_op_of {S : Type} (st : step Insert.call S) : option InsertOp :=
  match st with
  | Step e x _ =>
    match e in Insert.call X return X -> option InsertOp with
    | Insert.mutate_New _ src => fun x => Some (OpNew src x)
    | Insert.mutator_Add m r h => fun x => Some (OpAdd m r h x)
    | Insert.mutator_Commit m => fun x => Some (OpCommit m x)
    | Insert.engineExt_UpdateReference _ name d => fun x => Some (OpUpdate name d x)
    | _ => fun _ => None
    end x
  end.

Definition clock_op_of {S : Type} (st : step Insert.call S) : option ClockOp :=
  match st with
  | Step e x _ =>
    match e in Insert.call X return X -> option ClockOp with
    | Insert.time_Now => fun x => Some (OpNow x)
    | Insert.time_Parse layout value => fun x => Some (OpParse layout value x)
    | _ => fun _ => None
    end x
  end.

Definition insert_ops {S : Type} (tr : list (step Insert.call S)) : list InsertOp :=
  omap insert_op_of tr.
Definition clock_ops {S : Type} (tr : list (step Insert.call S)) : list ClockOp :=
  omap clock_op_of tr.

(** The calls of [insert] that can write to the store. *)
Definition is_write (op : InsertOp) : bool :=
  match op with
  | OpAdd _ _ _ _ | OpCommit _ _ | OpUpdate _ _ _ => true
  | OpNew _ _ => false
  end.

(** The effect of one call of [insert] on the reference name space. *)
Definition apply_update (rs : gmap string Descriptor) (op : InsertOp)
  : gmap string Descriptor :=
  match op with
  | OpUpdate name d None => <[name := d]> rs
  | _ => rs
  end.

(** What [ResolveReference] was asked and what it answered. *)
Definition resolve_of {S : Type} (st : step Insert.call S)
  : option (string * result (list DescriptorPath)) :=
  match st with
  | Step e x _ =>
    match e in Insert.call X return X -> option _ with
    | Insert.engineExt_ResolveReference _ name => fun x => Some (name, x)
    | _ => fun _ => None
    end x
  end.

Definition resolves {S : Type} (tr : list (step Insert.call S)) := omap resolve_of tr.

(** A run of [insert] on the model store [w] that opened the mutator [m0]
    on [src], read from the blobs of [w], added the layer [r] with the
    history entry [hist], committed to the mutator [m2] and the walk
    [path], and pointed [tag] at the root of [path]. *)
Definition insert_committed (c : Model.Collaborators) (w : Model.Store)
    (tr : list (step Insert.call Model.Store)) (tag : string)
    (src : DescriptorPath) (m0 : Mutator) (r : Reader) (hist : History)
    (m2 : Mutator) (path : DescriptorPath) : Prop :=
  exists w0 w1 w2,
    Model.blobs w0 = Model.blobs w
    /\ Model.New c src w0 = Ok m0
    /\ Model.Commit c (Model.Add c m0 r hist) w1 = (m2, Ok path, w2)
    /\ insert_ops tr = [OpNew src (Ok m0);
                        OpAdd m0 r hist (Model.Add c m0 r hist, None);
                        OpCommit (Model.Add c m0 r hist) (m2, Ok path);
                        OpUpdate tag (Root path) None]
    /\ Model.refs (final w tr) = <[tag := Root path]> (Model.refs w).

(** ** A trace is a chain of handler steps *)

Section Chain.
Context {E : Type -> Type} {S : Type} (h : handler E S).

Fixpoint chain (s : S) (tr : list (step E S)) : Prop :=
  match tr with
  | [] => True
  | st :: tr =>
      h _ (step_call st) s = (step_resp st, step_post st)
      /\ chain (step_post st) tr
  end.
End Chain.

(** ** The store's contract, as the commands rely on it *)

(** Modelled from the spec: what a handler of [repack]'s calls must do to
    the reference name space (§4.2, §5).  References are a name space of
    their own, so only [DeleteReference] and [PutReference] touch it; each
    is atomic, so a call that reports an error leaves it as it was. *)
Record RepackContract {S : Type} (h : handler Repack.call S)
    (refs_of : S -> gmap string Descriptor) : Prop := {
  repack_frame : forall X (e : Repack.call X) s,
    ref_write_of (Step e (h X e s).1 (h X e s).2) = None ->
    refs_of (h X e s).2 = refs_of s;
  repack_delete : forall engine name s,
    refs_of (h _ (Repack.engine_DeleteReference engine name) s).2 =
    match (h _ (Repack.engine_DeleteReference engine name) s).1 with
    | None => delete name (refs_of s)
    | Some _ => refs_of s
    end;
  repack_put : forall engine name d s,
    refs_of (h _ (Repack.engine_PutReference engine name d) s).2 =
    match (h _ (Repack.engine_PutReference engine name d) s).1 with
    | None => <[name := d]> (refs_of s)
    | Some _ => refs_of s
    end
}.

(** Modelled from the spec: the same for [insert]'s calls, with the blobs
    (§4.2, §4.6, §5).  Only the mutator's [Add] and [Commit] may write
    blobs and they never touch a reference; only [UpdateReference] touches
    the references, it creates or replaces the one name atomically, and
    leaves them as they were when it reports an error. *)
Record InsertContract {S : Type} (h : handler Insert.call S)
    (blobs_of : S -> gmap string Model.BlobContent)
    (refs_of : S -> gmap string Descriptor) : Prop := {
  insert_blobs : forall X (e : Insert.call X) s,
    match insert_op_of (Step e (h X e s).1 (h X e s).2) with
    | Some (OpAdd _ _ _ _) | Some (OpCommit _ _) => True
    | _ => blobs_of (h X e s).2 = blobs_of s
    end;
  insert_refs : forall X (e : Insert.call X) s,
    refs_of (h X e s).2 =
    match insert_op_of (Step e (h X e s).1 (h X e s).2) with
    | Some op => apply_update (refs_of s) op
    | None => refs_of s
    end
}.

(** ** A small image store to run the commands on *)

Module Example.

(** A count written as that many strokes. *)
Fixpoint tally (n : nat) : string :=
  match n with
  | O => ""
  | Datatypes.S n => "i" +:+ tally n
  end.

(** A toy digest: short names that tell apart the blobs of the example. *)
Definition digest_of (content : Model.BlobContent) : string :=
  match content with
  | Model.RawBytes b => "sha256:" +:+ b
  | Model.JSON (JSONImage i) =>
      "sha256:config" +:+ tally (length (DiffIDs (rootfs i)))
      +:+ "." +:+ tally (length (history i))
  | Model.JSON (JSONManifest m) =>
      "sha256:manifest" +:+ tally (length (Layers m)) +:+ "/" +:+ Digest (Config m)
  | Model.JSON (JSONManifestList ms) =>
      "sha256:list" +:+ tally (length ms)
  end.

Definition collaborators : Model.Collaborators :=
  {| Model.digest_of := digest_of;
     Model.size_of := fun _ => 1;
     Model.diffid_of := fun b => "diff:" +:+ b;
     Model.open_file := fun name => Ok (mkFile name);
     Model.parse_spec := fun _ => Ok [];
     Model.used_keywords := fun _ => [];
     Model.check := fun _ _ _ => Ok [];
     Model.generate_layer := fun _ _ => Ok (mkReader "new");
     Model.idmap_options := fun meta _ => (meta, None);
     Model.insert_layer := fun _ _ _ => mkReader "inserted";
     Model.now := 1500000000;
     Model.parse_time := fun _ value =>
       if decide (value = "2017-01-01T00:00:00Z") then Ok 1483228800
       else Fail (Errorf "parsing time") |}.

Definition h0 : History :=
  {| Created := None; CreatedBy := "base"; Author := ""; Comment := "";
     EmptyLayer := false |}.

(** The base image: one layer, one diffID, one history entry. *)
Definition C0 : Image :=
  {| ImageOther := "{}";
     rootfs := {| Type_ := "layers"; DiffIDs := ["diff:old"] |};
     history := [h0] |}.

Definition dC0 : Descriptor :=
  {| MediaType := MediaTypeImageConfig;
     Digest := digest_of (Model.JSON (JSONImage C0)); Size := 1 |}.

Definition M0 : Manifest :=
  {| SchemaVersion := 2; Config := dC0;
     Layers := [ {| MediaType := MediaTypeImageLayer;
                    Digest := "sha256:old"; Size := 1 |} ] |}.

Definition dM0 : Descriptor :=
  {| MediaType := MediaTypeImageManifest;
     Digest := digest_of (Model.JSON (JSONManifest M0)); Size := 1 |}.

(** A manifest list with two entries. *)
Definition L0 : list Descriptor :=
  [ dM0; {| MediaType := MediaTypeImageManifest; Digest := "sha256:arm"; Size := 1 |} ].

Definition dL0 : Descriptor :=
  {| MediaType := MediaTypeImageManifestList;
     Digest := digest_of (Model.JSON (JSONManifestList L0)); Size := 1 |}.

(** The store holding the base image under the tag [latest] and the
    manifest list under the tag [multi], with a given schedule of I/O
    faults. *)
Definition store (faults : list (option error)) : Model.Store :=
  {| Model.blobs := <[Digest dL0 := Model.JSON (JSONManifestList L0)]>
                      (<[Digest dM0 := Model.JSON (JSONManifest M0)]>
                         (<[Digest dC0 := Model.JSON (JSONImage C0)]>
                            (<["sha256:old" := Model.RawBytes "old"]> ∅)));
     Model.refs := <["multi" := dL0]> {[ "latest" := dM0 ]};
     Model.faults := faults |}.

(** [umoci repack --image img --bundle bundle --from latest --tag <tag>] *)
Definition repack_ctx (tag : string) : gmap string string :=
  <["image" := "img"]> (<["bundle" := "bundle"]> (<["from" := "latest"]>
    (<["tag" := tag]> ∅))).

(** [umoci insert --image img:<tag> file /path], with optional history
    flags. *)
Definition insert_ctx (tag : string) (metadata : gmap string string) : Insert.Context :=
  {| Insert.image_path := "img"; Insert.image_tag := tag;
     Insert.insertFile := "file"; Insert.insertPath := "/path";
     Insert.Metadata := metadata |}.

Definition disk_full : error := Errorf "no space left on device".

(** The schedule under which the first [n] store operations go through
    and the next one meets [disk_full]. *)
Definition fail_after (n : nat) : list (option error) :=
  replicate n None ++ [Some disk_full].

Definition run_repack (tag : string) (faults : list (option error)) :=
  run (Model.repack_handler collaborators) (Repack.repack "rootfs" (repack_ctx tag))
      (store faults).

Definition run_insert (tag : string) (metadata : gmap string string)
    (faults : list (option error)) :=
  run (Model.insert_handler collaborators)
      (Insert.insert "2" "2006-01-02T15:04:05Z07:00" (insert_ctx tag metadata))
      (store faults).

End Example.

(** ** The rest of the two files *)

(** [repackCommand.Flags] (repack.go:49-67): the names of the flags the
    command declares. *)
Definition repackCommand_Flags : list string := ["image"; "from"; "bundle"; "tag"].

(** The [Before] hook of [insertCommand] (insert.go:56-71), on the
    positional arguments ([ctx.NArg] is their number) and the map
    [ctx.App.Metadata], which it updates in place.  The two indexings are
    in range once the number of arguments has been tested. *)
Definition insertCommand_Before (args : list string) (Metadata : gmap string string)
  : option error * gmap string string :=
  if decide (length args <> 2%nat) then
    (Some (Errorf "invalid number of positional arguments: expected <file> and <path>"),
     Metadata)
  else
  if decide (default "" (args !! 0%nat) = "") then
    (Some (Errorf "<file> cannot be empty"), Metadata)
  else
  let Metadata := <["insertFile" := default "" (args !! 0%nat)]> Metadata in
  if decide (default "" (args !! 1%nat) = "") then
    (Some (Errorf "<path> cannot be empty"), Metadata)
  else
  let Metadata := <["insertPath" := default "" (args !! 1%nat)]> Metadata in
  (None, Metadata).

(** What [insert] takes from [ctx.App.Metadata] (insert.go:75-76, 104-105,
    127-142): four entries by a type assertion, which panics on a missing
    entry ([None] here: no run), and the history entries by a tested
    lookup. *)
Definition insert_Context (Metadata : gmap string string) : option Insert.Context :=
  imagePath ← Metadata !! "--image-path";
  tagName ← Metadata !! "--image-tag";
  insertFile ← Metadata !! "insertFile";
  insertPath ← Metadata !! "insertPath";
  Some {| Insert.image_path := imagePath; Insert.image_tag := tagName;
          Insert.insertFile := insertFile; Insert.insertPath := insertPath;
          Insert.Metadata := Metadata |}.

(** *** Reading more of a run *)

(** The first call of a trace that reports an error, by a reading [f] of
    which errors count, with the calls made after it. *)
Fixpoint first_error {E : Type -> Type} {S : Type} (f : step E S -> option error)
    (tr : list (step E S)) : option (error * list (step E S)) :=
  match tr with
  | [] => None
  | st :: tr =>
    match f st with
    | Some err => Some (err, tr)
    | None => first_error f tr
    end
  end.

(** Whether every call of a trace is one that [f] reads. *)
Definition only {E : Type -> Type} {S A : Type} (f : step E S -> option A)
    (tr : list (step E S)) : bool :=
  forallb (fun st => match f st with Some _ => true | None => false end) tr.

(** What the commands hold open until they return. *)
Inductive Resource : Type :=
| REngine (engine : Engine)
| RFile (f : File)
| RReader (r : Reader)
| RBlob (b : Blob).

(** The calls of [repack] that hand out something it defers a [Close] on
    (repack.go:88-92, 116-120, 134-138, 158-162, 171-175). *)
Definition acquire_of {S : Type} (st : step Repack.call S) : option Resource :=
  match st with
  | Step e x _ =>
    match e in Repack.call X return X -> option Resource with
    | Repack.cas_Open _ => fun x => match x with Ok engine => Some (REngine engine) | _ => None end
    | Repack.os_Open _ => fun x => match x with Ok mfh => Some (RFile mfh) | _ => None end
    | Repack.layerdiff_GenerateLayer _ _ =>
        fun x => match x with Ok reader => Some (RReader reader) | _ => None end
    | Repack.cas_FromDescriptor _ _ =>
        fun x => match x with Ok blob => Some (RBlob blob) | _ => None end
    | _ => fun _ => None
    end x
  end.

(** The [Close] calls of [repack]. *)
Definition release_of {S : Type} (st : step Repack.call S) : option Resource :=
  match st with
  | Step e _ _ =>
    match e with
    | Repack.engine_Close engine => Some (REngine engine)
    | Repack.mfh_Close mfh => Some (RFile mfh)
    | Repack.reader_Close reader => Some (RReader reader)
    | Repack.blob_Close blob => Some (RBlob blob)
    | _ => None
    end
  end.

(** The readers whose [PutBlob] returned nil. *)
Definition stored_of {S : Type} (st : step Repack.call S) : option Resource :=
  match st with
  | Step e x _ =>
    match e in Repack.call X return X -> option Resource with
    | Repack.engine_PutBlob _ reader =>
        fun x => match x with (_, _, None) => Some (RReader reader) | _ => None end
    | _ => fun _ => None
    end x
  end.

(** The errors [repack] tests and returns: those of every call but the
    [Close] calls and the manifest's [PutBlobJSON]. *)
Definition checked_error_of {S : Type} (st : step Repack.call S) : option error :=
  match st with
  | Step e x _ =>
    match e in Repack.call X return X -> option error with
    | Repack.cas_Open _ => fun x => match x with Fail err => Some err | _ => None end
    | Repack.engine_GetReference _ _ => fun x => match x with Fail err => Some err | _ => None end
    | Repack.os_Open _ => fun x => match x with Fail err => Some err | _ => None end
    | Repack.mtree_ParseSpec _ => fun x => match x with Fail err => Some err | _ => None end
    | Repack.mtree_Check _ _ _ => fun x => match x with Fail err => Some err | _ => None end
    | Repack.layerdiff_GenerateLayer _ _ =>
        fun x => match x with Fail err => Some err | _ => None end
    | Repack.engine_PutBlob _ _ => fun x => x.2
    | Repack.cas_FromDescriptor _ _ => fun x => match x with Fail err => Some err | _ => None end
    | Repack.engine_PutBlobJSON _ (JSONImage _) => fun x => x.2
    | Repack.engine_DeleteReference _ _ => fun x => x
    | Repack.engine_PutReference _ _ _ => fun x => x
    | _ => fun _ => None
    end x
  end.




(** The messages [repack] logs at level [Info]. *)
Definition info_of {S : Type} (st : step Repack.call S) : option string :=
  match st with
  | Step e _ _ =>
    match e with
    | Repack.logrus Info _ msg => Some msg
    | _ => None
    end
  end.

(** The same readings for [insert] (insert.go:79-84, 116-117). *)
Definition insert_acquire_of {S : Type} (st : step Insert.call S) : option Resource :=
  match st with
  | Step e x _ =>
    match e in Insert.call X return X -> option Resource with
    | Insert.dir_Open _ => fun x => match x with Ok engine => Some (REngine engine) | _ => None end
    | Insert.layer_GenerateInsertLayer _ _ _ => fun x => Some (RReader x)
    | _ => fun _ => None
    end x
  end.

Definition insert_release_of {S : Type} (st : step Insert.call S) : option Resource :=
  match st with
  | Step e _ _ =>
    match e with
    | Insert.engine_Close engine => Some (REngine engine)
    | Insert.reader_Close reader => Some (RReader reader)
    | _ => None
    end
  end.

(** The error [insert] returns when a call fails or resolves the tag to
    no path or to several: the call's error under the name of the step,
    except for [parseIdmapOptions], whose error is returned as it is. *)
Definition insert_error_of {S : Type} (st : step Insert.call S) : option error :=
  match st with
  | Step e x _ =>
    match e in Insert.call X return X -> option error with
    | Insert.dir_Open _ =>
        fun x => match x with Fail err => Some (Wrap err "open CAS") | _ => None end
    | Insert.engineExt_ResolveReference _ name =>
        fun x => match x with
                 | Fail err => Some (Wrap err "get descriptor")
                 | Ok [] => Some (Errorf ("tag not found: " +:+ name))
                 | Ok [_] => None
                 | Ok (_ :: _ :: _) => Some (Errorf ("tag is ambiguous: " +:+ name))
                 end
    | Insert.mutate_New _ _ =>
        fun x => match x with
                 | Fail err => Some (Wrap err "create mutator for base image")
                 | _ => None
                 end
    | Insert.parseIdmapOptions _ _ => fun x => x.2
    | Insert.time_Parse _ _ =>
        fun x => match x with
                 | Fail err => Some (Wrap err "parsing --history.created")
                 | _ => None
                 end
    | Insert.mutator_Add _ _ _ =>
        fun x => match x.2 with Some err => Some (Wrap err "add diff layer") | None => None end
    | Insert.mutator_Commit _ =>
        fun x => match x.2 with
                 | Fail err => Some (Wrap err "commit mutated image")
                 | _ => None
                 end
    | Insert.engineExt_UpdateReference _ _ _ =>
        fun x => match x with Some err => Some (Wrap err "add new tag") | None => None end
    | _ => fun _ => None
    end x
  end.

(** The calls of [insert] that prepare the layer stream. *)
Inductive LayerOp : Type :=
| LIdmap (meta : UmociMeta) (ctx : Insert.Context) (res : UmociMeta * option error)
| LGenerate (root target : string) (opt : list string) (reader : Reader).

Definition layer_op_of {S : Type} (st : step Insert.call S) : option LayerOp :=
  match st with
  | Step e x _ =>
    match e in Insert.call X return X -> option LayerOp with
    | Insert.parseIdmapOptions meta ctx => fun x => Some (LIdmap meta ctx x)
    | Insert.layer_GenerateInsertLayer root target opt =>
        fun x => Some (LGenerate root target opt x)
    | _ => fun _ => None
    end x
  end.

Definition layer_ops {S : Type} (tr : list (step Insert.call S)) : list LayerOp :=
  omap layer_op_of tr.

(** The messages [insert] logs. *)
Definition insert_log_of {S : Type} (st : step Insert.call S) : option string :=
  match st with
  | Step e _ _ =>
    match e with
    | Insert.log_Infof msg => Some msg
    | _ => None
    end
  end.

(** The engine [cas.Open] handed out, and the engine each later call of
    [repack] is made on. *)
Definition opened_of {S : Type} (st : step Repack.call S) : option Engine :=
  match st with
  | Step e x _ =>
    match e in Repack.call X return X -> option Engine with
    | Repack.cas_Open _ => fun x => match x with Ok engine => Some engine | _ => None end
    | _ => fun _ => None
    end x
  end.

Definition engine_of {S : Type} (st : step Repack.call S) : option Engine :=
  match st with
  | Step e _ _ =>
    match e with
    | Repack.engine_Close engine
    | Repack.engine_GetReference engine _
    | Repack.engine_PutBlob engine _
    | Repack.cas_FromDescriptor engine _
    | Repack.engine_PutBlobJSON engine _
    | Repack.engine_DeleteReference engine _
    | Repack.engine_PutReference engine _ _ => Some engine
    | _ => None
    end
  end.

(** The same for [insert] and [dir.Open]. *)
Definition insert_opened_of {S : Type} (st : step Insert.call S) : option Engine :=
  match st with
  | Step e x _ =>
    match e in Insert.call X return X -> option Engine with
    | Insert.dir_Open _ => fun x => match x with Ok engine => Some engine | _ => None end
    | _ => fun _ => None
    end x
  end.

Definition insert_engine_of {S : Type} (st : step Insert.call S) : option Engine :=
  match st with
  | Step e _ _ =>
    match e with
    | Insert.engine_Close engine
    | Insert.engineExt_ResolveReference engine _
    | Insert.mutate_New engine _
    | Insert.engineExt_UpdateReference engine _ _ => Some engine
    | _ => None
    end
  end.

(** * Properties *)

(** ** Traces *)

Section ChainFacts.
Context {E : Type -> Type} {S : Type} (h : handler E S).

Lemma run_chain {R : Type} (p : Prog E R) (s : S) : chain h s (run h p s).2.
Proof.
  revert s. induction p as [r | X e k IH]; intros s; simpl; [done |].
  destruct (h X e s) as [x s'] eqn:He.
  specialize (IH x s'). destruct (run h (k x) s') as [r tr].
  simpl in *. by rewrite He.
Qed.

Lemma final_app (s : S) (tr1 tr2 : list (step E S)) :
  final s (tr1 ++ tr2) = final (final s tr1) tr2.
Proof. revert s. induction tr1 as [| st tr1 IH]; intros s; simpl; [done | apply IH]. Qed.

Lemma chain_app (s : S) (tr1 tr2 : list (step E S)) :
  chain h s (tr1 ++ tr2) -> chain h s tr1 /\ chain h (final s tr1) tr2.
Proof.
  revert s. induction tr1 as [| st tr1 IH]; intros s; simpl; [done |].
  intros [He Hc]. destruct (IH _ Hc). done.
Qed.

Lemma states_split (s s' : S) (tr : list (step E S)) :
  s' ∈ states s tr -> exists tr1 tr2, tr = tr1 ++ tr2 /\ s' = final s tr1.
Proof.
  unfold states. revert s. induction tr as [| st tr IH]; intros s; simpl.
  - intros ->%list_elem_of_singleton. by exists [], [].
  - intros [-> | Hin]%elem_of_cons.
    + by exists [], (st :: tr).
    + destruct (IH _ Hin) as (tr1 & tr2 & -> & ->).
      by exists (st :: tr1), tr2.
Qed.

Lemma final_states (s : S) (tr : list (step E S)) : final s tr ∈ states s tr.
Proof.
  unfold states. revert s. induction tr as [| st tr IH]; intros s; simpl.
  - apply list_elem_of_here.
  - apply list_elem_of_further, IH.
Qed.
End ChainFacts.

(** ** References along a run of [repack] *)

Section RepackRefs.
Context {S : Type} (h : handler Repack.call S) (refs_of : S -> gmap string Descriptor).
Hypothesis contract : RepackContract h refs_of.

Lemma refs_step X (e : Repack.call X) (x : X) (s s' : S) :
  h X e s = (x, s') ->
  refs_of s' = foldl apply_ref_write (refs_of s) (ref_writes [Step e x s']).
Proof.
  intros He.
  pose proof (repack_frame h refs_of contract X e s) as Hf.
  rewrite He in Hf.
  destruct e; simpl in *; try (by apply Hf).
  - match type of He with
    | h _ (Repack.engine_DeleteReference ?en ?n) _ = _ =>
        pose proof (repack_delete h refs_of contract en n s) as Hd
    end.
    rewrite He in Hd. simpl in Hd. rewrite Hd. by destruct x.
  - match type of He with
    | h _ (Repack.engine_PutReference ?en ?n ?d) _ = _ =>
        pose proof (repack_put h refs_of contract en n d s) as Hd
    end.
    rewrite He in Hd. simpl in Hd. rewrite Hd. by destruct x.
Qed.

Lemma refs_replay (s : S) (tr : list (step Repack.call S)) :
  chain h s tr ->
  refs_of (final s tr) = foldl apply_ref_write (refs_of s) (ref_writes tr).
Proof.
  revert s. induction tr as [| [X e x s'] tr IH]; intros s; [done |].
  intros [He Hc]. simpl in He, Hc.
  change (final s (Step e x s' :: tr)) with (final s' tr).
  rewrite (IH _ Hc), (refs_step _ _ _ _ _ He).
  change (Step e x s' :: tr) with ([Step e x s'] ++ tr).
  unfold ref_writes. by rewrite omap_app, foldl_app.
Qed.
End RepackRefs.

(** ** Every run of [repack], whatever the engine answers *)

(** Walk through a command: answer each call by cases, follow each
    branch. *)
Ltac explore h :=
  repeat first
    [ progress simpl
    | match goal with
      | |- context [h ?X ?e ?s] => destruct (h X e s) as [? ?]
      | |- context [match ?x with _ => _ end] => is_var x; destruct x
      | |- context [match Data ?b with _ => _ end] => destruct (Data b) eqn:?
      | |- context [match ?m !! ?k with _ => _ end] => destruct (m !! k) eqn:?
      | |- context [decide ?P] => destruct (decide P)
      end ].

Section RepackRuns.
Context {S : Type} (h : handler Repack.call S).
Variables (rootfsName : string) (ctx : gmap string string).

(** The reference writes of a run: none, or the deletion of the tag
    followed, when the deletion went through, by the put of the tag. *)
Lemma repack_ref_writes (s : S) res tr :
  run h (Repack.repack rootfsName ctx) s = (res, tr) ->
  let tagName := ctx_String ctx "tag" in
  ref_writes tr = []
  \/ tagName <> "" /\
     ((exists err, res = Some err /\ ref_writes tr = [(RefDelete tagName, Some err)])
      \/ (exists d err, res = Some err /\
            ref_writes tr = [(RefDelete tagName, None); (RefPut tagName d, Some err)])
      \/ (exists d, res = None /\
            ref_writes tr = [(RefDelete tagName, None); (RefPut tagName d, None)])).
Proof.
  unfold Repack.repack. explore h.
  all: intros [<- <-]%pair_equal_spec; cbn.
  all: first [ by left | right; split; [done |] ].
  all: eauto 10.
Qed.

Lemma repack_tag_empty (s : S) res tr :
  run h (Repack.repack rootfsName ctx) s = (res, tr) ->
  ctx_String ctx "tag" = "" -> ref_writes tr = [].
Proof.
  intros Hrun Htag. destruct (repack_ref_writes _ _ _ Hrun) as [? | [? _]]; done.
Qed.

(** A run that got to the manifest write decoded the base manifest and
    config and wrote three blobs built from them. *)
Lemma repack_writes (s : S) res tr :
  run h (Repack.repack rootfsName ctx) s = (res, tr) ->
  map kind_of (blob_writes tr) = [KLayer; KConfig; KManifest] ->
  exists manifest config ld ls cd cs, repack_wrote tr manifest config ld ls cd cs.
Proof.
  unfold Repack.repack, repack_wrote. explore h.
  all: intros [<- <-]%pair_equal_spec; cbn.
  all: intros Hkinds; try discriminate Hkinds.
  all: do 11 eexists; split_and!; try reflexivity; eauto.
Qed.

(** A run that returns nil got to the manifest write. *)
Lemma repack_success (s : S) tr :
  run h (Repack.repack rootfsName ctx) s = (None, tr) ->
  map kind_of (blob_writes tr) = [KLayer; KConfig; KManifest].
Proof.
  unfold Repack.repack. explore h.
  all: intros [Hres <-]%pair_equal_spec; try discriminate Hres; done.
Qed.

Lemma repack_order (s : S) res tr :
  run h (Repack.repack rootfsName ctx) s = (res, tr) ->
  map kind_of (blob_writes tr) `prefix_of` [KLayer; KConfig; KManifest].
Proof.
  unfold Repack.repack. explore h.
  all: intros [<- <-]%pair_equal_spec; cbn.
  all: first [ by apply prefix_nil | by exists [KConfig; KManifest]
             | by exists [KManifest] | by exists [] ].
Qed.
End RepackRuns.

(** ** Every run of [insert], whatever the engine answers *)

Section InsertRuns.
Context {S : Type} (h : handler Insert.call S).
Variables (UmociMetaVersion ISO8601 : string) (ctx : Insert.Context).

(** The mutator calls and the reference update of a run, by how far the
    run got. *)
Lemma insert_run_ops (s : S) res tr :
  run h (Insert.insert UmociMetaVersion ISO8601 ctx) s = (res, tr) ->
  let tagName := Insert.image_tag ctx in
  (exists err, res = Some err /\ insert_ops tr = [])
  \/ exists src,
     (exists err, res = Some (Wrap err "create mutator for base image")
                  /\ insert_ops tr = [OpNew src (Fail err)])
     \/ exists m,
        (exists err, res = Some err /\ insert_ops tr = [OpNew src (Ok m)])
        \/ exists r hist m1,
           ((exists err, res = Some (Wrap err "add diff layer") /\
               insert_ops tr = [OpNew src (Ok m); OpAdd m r hist (m1, Some err)])
            \/ exists m2,
               (exists err, res = Some (Wrap err "commit mutated image") /\
                  insert_ops tr = [OpNew src (Ok m); OpAdd m r hist (m1, None);
                                   OpCommit m1 (m2, Fail err)])
               \/ exists path,
                  (exists err, res = Some (Wrap err "add new tag") /\
                     insert_ops tr = [OpNew src (Ok m); OpAdd m r hist (m1, None);
                                      OpCommit m1 (m2, Ok path);
                                      OpUpdate tagName (Root path) (Some err)])
                  \/ (res = None /\
                      insert_ops tr = [OpNew src (Ok m); OpAdd m r hist (m1, None);
                                       OpCommit m1 (m2, Ok path);
                                       OpUpdate tagName (Root path) None]))
           /\ EmptyLayer hist = false.
Proof.
  unfold Insert.insert. explore h.
  all: intros [<- <-]%pair_equal_spec; cbn.
  all: first [ by left; eauto
             | right; eexists; left; by eauto
             | right; eexists; right; eexists; left; by eauto
             | right; eexists; right; eexists; right; do 3 eexists;
               split;
               [ first [ left; by eauto
                       | right; eexists; left; by eauto
                       | right; eexists; right; eexists; left; by eauto
                       | right; eexists; right; eexists; right; by eauto ]
               | reflexivity ] ].
Qed.
End InsertRuns.

(** ** The model store meets the contracts *)

Section ModelFacts.
Variable c : Model.Collaborators.

(** A store operation either meets a fault and changes nothing but the
    schedule, or runs on the same blobs and references. *)
Lemma io_inv {A : Type} (w w1 : Model.Store) (fail : error -> A)
    (ok : Model.Store -> A * Model.Store) (x : A) :
  Model.io w fail ok = (x, w1) ->
  (exists err, x = fail err /\ Model.blobs w1 = Model.blobs w /\ Model.refs w1 = Model.refs w)
  \/ (exists w', Model.blobs w' = Model.blobs w /\ Model.refs w' = Model.refs w
                 /\ ok w' = (x, w1)).
Proof.
  unfold Model.io.
  destruct (Model.faults w) as [| [err |] fs]; intros Hio.
  - right. by exists w.
  - simplify_eq. left. by exists err.
  - right. by eexists (Model.set_faults fs w).
Qed.

Lemma Put_refs content w : Model.refs (Model.Put c content w).2 = Model.refs w.
Proof. unfold Model.Put. by destruct (Model.blobs w !! _). Qed.

Lemma write_layers_refs layers w :
  Model.refs (Model.write_layers c layers w).2 = Model.refs w.
Proof.
  revert w. induction layers as [| [r hist] layers IH]; intros w; simpl; [done |].
  destruct (Model.io w _ _) as [err w1] eqn:Hio.
  apply io_inv in Hio as [(e & -> & _ & Hr) | (w' & _ & Hr & Hok)]; [done |].
  pose proof (Put_refs (Model.RawBytes (reader_bytes r)) w') as HP.
  destruct (Model.Put c _ w') as [[? ?] w2]. simplify_eq. simpl in *.
  rewrite IH. congruence.
Qed.

Lemma Commit_refs m w : Model.refs (Model.Commit c m w).2 = Model.refs w.
Proof.
  unfold Model.Commit.
  pose proof (write_layers_refs (pending m) w) as H0.
  destruct (Model.write_layers c (pending m) w) as [[err |] w1]; simpl in *; [done |].
  destruct (Model.io w1 _ _) as [cres w2] eqn:Hio.
  apply io_inv in Hio as [(e & -> & _ & Hr) | (w' & _ & Hr & Hok)]; [simpl; congruence |].
  pose proof (Put_refs (Model.JSON (JSONImage (config m))) w') as HP.
  destruct (Model.Put c _ w') as [[cd cs] w3]. simplify_eq. simpl in *.
  destruct (Model.io w2 _ _) as [mres w4] eqn:Hio.
  apply io_inv in Hio as [(e & -> & _ & Hr') | (w'' & _ & Hr' & Hok)]; [simpl; congruence |].
  match type of Hok with context [Model.Put c ?x ?w] =>
    pose proof (Put_refs x w) as HP'; destruct (Model.Put c x w) as [[md ms] w5] end.
  simplify_eq. simpl in *. congruence.
Qed.

Lemma model_repack_contract : RepackContract (Model.repack_handler c) Model.refs.
Proof.
  split.
  - intros X e s. destruct e; simpl; try done; intros _.
    all: destruct (Model.io s _ _) as [x w1] eqn:Hio; simpl.
    all: apply io_inv in Hio as [(e & -> & _ & Hr) | (w' & _ & Hr & Hok)]; [done |].
    all: try (simplify_eq; done).
    all: match type of Hok with context [Model.Put c ?x ?w] =>
           pose proof (Put_refs x w) as HP; destruct (Model.Put c x w) as [[md ms] w5] end.
    all: simplify_eq; simpl in *; congruence.
  - intros engine name s. simpl.
    destruct (Model.io s _ _) as [x w1] eqn:Hio; simpl.
    apply io_inv in Hio as [(e & -> & _ & Hr) | (w' & _ & Hr & Hok)]; [done |].
    simplify_eq. simpl. by rewrite Hr.
  - intros engine name d s. simpl.
    destruct (Model.io s _ _) as [x w1] eqn:Hio; simpl.
    apply io_inv in Hio as [(e & -> & _ & Hr) | (w' & _ & Hr & Hok)]; [done |].
    simplify_eq. simpl. by rewrite Hr.
Qed.

Lemma model_insert_contract :
  InsertContract (Model.insert_handler c) Model.blobs Model.refs.
Proof.
  split.
  - intros X e s. destruct e; simpl; try done.
    all: destruct (Model.io s _ _) as [x w1] eqn:Hio; simpl.
    all: apply io_inv in Hio as [(e & -> & Hb & _) | (w' & Hb & _ & Hok)];
           [by try destruct x | simplify_eq; by try destruct x].
  - intros X e s. destruct e; simpl; try done.
    all: try (destruct (Model.io s _ _) as [x w1] eqn:Hio; simpl;
              apply io_inv in Hio as [(e & -> & _ & Hr) | (w' & _ & Hr & Hok)];
              [done | simplify_eq; simpl; by rewrite ?Hr]).
    apply Commit_refs.
Qed.
End ModelFacts.

(** ** References and blobs along a run of [insert] *)

Section InsertRefs.
Context {S : Type} (h : handler Insert.call S).
Variables (blobs_of : S -> gmap string Model.BlobContent)
          (refs_of : S -> gmap string Descriptor).
Hypothesis contract : InsertContract h blobs_of refs_of.

Lemma insert_refs_replay (s : S) (tr : list (step Insert.call S)) :
  chain h s tr ->
  refs_of (final s tr) = foldl apply_update (refs_of s) (insert_ops tr).
Proof.
  revert s. induction tr as [| [X e x s'] tr IH]; intros s; [done |].
  intros [He Hc]. simpl in He, Hc.
  change (final s (Step e x s' :: tr)) with (final s' tr).
  rewrite (IH _ Hc).
  pose proof (insert_refs h blobs_of refs_of contract X e s) as Hr.
  rewrite He in Hr. simpl fst in Hr. simpl snd in Hr. rewrite Hr.
  change (Step e x s' :: tr) with ([Step e x s'] ++ tr).
  unfold insert_ops. rewrite omap_app, foldl_app. f_equal.
  change (omap insert_op_of [Step e x s'])
    with (match insert_op_of (Step e x s') with Some op => [op] | None => [] end).
  by destruct (insert_op_of (Step e x s')).
Qed.

(** A trace without a writing call leaves blobs and references alone,
    all along. *)
Lemma insert_no_write (s : S) (tr : list (step Insert.call S)) :
  chain h s tr ->
  Forall (fun op => is_write op = false) (insert_ops tr) ->
  forall s', s' ∈ states s tr -> blobs_of s' = blobs_of s /\ refs_of s' = refs_of s.
Proof.
  unfold states. revert s. induction tr as [| [X e x s1] tr IH]; intros s Hc Hw s'.
  - by intros ->%list_elem_of_singleton.
  - destruct Hc as [He Hc]. simpl in He, Hc.
    intros [-> | Hin]%elem_of_cons; [done |].
    change (Step e x s1 :: tr) with ([Step e x s1] ++ tr) in Hw.
    unfold insert_ops in Hw. rewrite omap_app in Hw. apply Forall_app in Hw as [Hw1 Hw2].
    destruct (IH s1 Hc Hw2 s' Hin) as [-> ->].
    pose proof (insert_refs h blobs_of refs_of contract X e s) as Hr.
    pose proof (insert_blobs h blobs_of refs_of contract X e s) as Hb.
    rewrite He in Hr, Hb. simpl fst in *. simpl snd in *.
    change (omap insert_op_of [Step e x s1])
      with (match insert_op_of (Step e x s1) with Some op => [op] | None => [] end) in Hw1.
    destruct (insert_op_of (Step e x s1)) as [op |]; [| done].
    apply Forall_inv in Hw1.
    destruct op; try discriminate Hw1. simpl in Hr. by split.
Qed.
End InsertRefs.

(** ** What [repack] returns *)

Section RepackResults.
Context {S : Type} (h : handler Repack.call S).
Variables (rootfsName : string) (ctx : gmap string string).

(** Without a tag, [repack] returns nil exactly when it got as far as
    the manifest write. *)
Lemma repack_untagged_result (s : S) res tr :
  run h (Repack.repack rootfsName ctx) s = (res, tr) ->
  ctx_String ctx "tag" = "" ->
  res = None <-> map kind_of (blob_writes tr) = [KLayer; KConfig; KManifest].
Proof.
  unfold Repack.repack. explore h.
  all: intros [<- <-]%pair_equal_spec; cbn.
  all: intros Htag; try done.
Qed.

(** [repack] goes on only from a [--from] reference that exists and
    designates a single manifest: otherwise it returns an error and writes
    neither a blob nor a reference. *)
Lemma repack_from_reference (s : S) res tr :
  run h (Repack.repack rootfsName ctx) s = (res, tr) ->
  forall name r, (name, r) ∈ get_references tr ->
    name = ctx_String ctx "from"
    /\ match r with
       | Fail err => res = Some err /\ blob_writes tr = [] /\ ref_writes tr = []
       | Ok d =>
           MediaType d <> MediaTypeImageManifest ->
           res = Some (Errorf ("--from descriptor does not point to v1.MediaTypeImageManifest: not implemented: "
                               +:+ MediaType d))
           /\ blob_writes tr = [] /\ ref_writes tr = []
       end.
Proof.
  unfold Repack.repack. explore h.
  all: intros [<- <-]%pair_equal_spec; cbn.
  all: intros name r Hin.
  all: repeat first
         [ apply elem_of_nil in Hin; destruct Hin
         | apply elem_of_cons in Hin as [Hin | Hin]; [simplify_eq/= |] ].
  all: split; [done |]; try done.
Qed.

(** The error of the manifest write is not looked at: without a tag the
    run returns nil whatever that write reported. *)
Lemma repack_manifest_error_dropped (s : S) res tr :
  run h (Repack.repack rootfsName ctx) s = (res, tr) ->
  ctx_String ctx "tag" = "" ->
  forall w, w ∈ blob_writes tr -> kind_of w = KManifest -> res = None.
Proof.
  unfold Repack.repack. explore h.
  all: intros [<- <-]%pair_equal_spec; cbn.
  all: intros Htag w Hin Hk; try done.
  all: repeat first
         [ apply elem_of_nil in Hin; destruct Hin
         | apply elem_of_cons in Hin as [Hin | Hin]; [simplify_eq/= |] ].
Qed.

(** Errors of the layer write, of the config write and of the two
    decodes are returned as they are. *)
Lemma repack_propagates (s : S) res tr :
  run h (Repack.repack rootfsName ctx) s = (res, tr) ->
  (forall w err, w ∈ blob_writes tr -> kind_of w <> KManifest -> w.2.2 = Some err ->
     res = Some err)
  /\ (forall d err, (d, Fail err) ∈ reads tr -> res = Some err).
Proof.
  unfold Repack.repack. explore h.
  all: intros [<- <-]%pair_equal_spec; cbn.
  all: split; [intros w err' Hin Hk Hw | intros d err' Hin].
  all: repeat first
         [ apply elem_of_nil in Hin; destruct Hin
         | apply elem_of_cons in Hin as [Hin | Hin]; [simplify_eq/= |] ].
  all: done.
Qed.
End RepackResults.

(** ** The mutator of the model *)

Section MutatorFacts.
Variable c : Model.Collaborators.

Lemma Put_spec content w :
  exists w', Model.Put c content w
             = (Model.digest_of c content, Model.size_of c content, w')
    /\ is_Some (Model.blobs w' !! Model.digest_of c content)
    /\ (forall digest, is_Some (Model.blobs w !! digest) -> is_Some (Model.blobs w' !! digest)).
Proof.
  unfold Model.Put.
  destruct (Model.blobs w !! Model.digest_of c content) as [old |] eqn:Hold.
  - exists w. by rewrite Hold.
  - eexists. split; [reflexivity |]. simpl. split.
    + rewrite lookup_insert_eq. by eexists.
    + intros digest Hd. destruct (decide (Model.digest_of c content = digest)) as [<- |].
      * rewrite lookup_insert_eq. by eexists.
      * by rewrite lookup_insert_ne.
Qed.

Lemma GetBlob_blobs d w1 w2 :
  Model.blobs w1 = Model.blobs w2 -> Model.GetBlob c d w1 = Model.GetBlob c d w2.
Proof. unfold Model.GetBlob. by intros ->. Qed.

Lemma New_blobs src w1 w2 :
  Model.blobs w1 = Model.blobs w2 -> Model.New c src w1 = Model.New c src w2.
Proof.
  intros Hb. unfold Model.New. case_decide; [done |].
  rewrite (GetBlob_blobs _ w1 w2 Hb).
  destruct (Model.GetBlob c (Descriptor_ src) w2) as [mblob |]; [| done].
  destruct (Data mblob); try done.
  by rewrite (GetBlob_blobs _ w1 w2 Hb).
Qed.

(** [New] hands out the manifest and the config the base designates. *)
Lemma New_ok src w m :
  Model.New c src w = Ok m ->
  source m = src /\ pending m = []
  /\ exists mblob cblob,
       Model.GetBlob c (Descriptor_ src) w = Ok mblob
       /\ Data mblob = DataManifest (manifest m)
       /\ Model.GetBlob c (Config (manifest m)) w = Ok cblob
       /\ Data cblob = DataImage (config m).
Proof.
  unfold Model.New. case_decide; [done |].
  destruct (Model.GetBlob c (Descriptor_ src) w) as [mblob |] eqn:Hm; [| done].
  destruct (Data mblob) as [m0 | | |] eqn:Hdm; try done.
  destruct (Model.GetBlob c (Config m0) w) as [cblob |] eqn:Hc; [| done].
  destruct (Data cblob) as [| c0 | |] eqn:Hdc; try done.
  intros [= <-]. simpl. split_and!; try done. by exists mblob, cblob.
Qed.

(** A [Commit] that succeeds keeps the working copy's layers and config,
    points the manifest at the config it wrote, and returns the walk of
    the manifest it wrote. *)
Lemma Commit_ok m w m2 path w2 :
  Model.Commit c m w = (m2, Ok path, w2) ->
  config m2 = config m
  /\ Layers (manifest m2) = Layers (manifest m)
  /\ Config (manifest m2) =
     {| MediaType := MediaTypeImageConfig;
        Digest := Model.digest_of c (Model.JSON (JSONImage (config m)));
        Size := Model.size_of c (Model.JSON (JSONImage (config m))) |}
  /\ path =
     {| Walk_root := {| MediaType := MediaTypeImageManifest;
                        Digest := Model.digest_of c (Model.JSON (JSONManifest (manifest m2)));
                        Size := Model.size_of c (Model.JSON (JSONManifest (manifest m2))) |};
        Walk_rest := [] |}
  /\ is_Some (Model.blobs w2 !! Digest (Config (manifest m2)))
  /\ is_Some (Model.blobs w2 !! Digest (Root path)).
Proof.
  unfold Model.Commit.
  destruct (Model.write_layers c (pending m) w) as [[err |] w1]; [done |].
  destruct (Model.io w1 _ _) as [cres w3] eqn:Hio.
  apply io_inv in Hio as [(e & -> & _ & _) | (w' & _ & _ & Hok)]; [done |].
  destruct (Put_spec (Model.JSON (JSONImage (config m))) w') as (w4 & HP & Hin & _).
  rewrite HP in Hok. simplify_eq.
  destruct (Model.io w3 _ _) as [mres w5] eqn:Hio.
  apply io_inv in Hio as [(e & -> & _ & _) | (w'' & Hb & _ & Hok)]; [done |].
  match type of Hok with context [Model.Put c ?x ?w] =>
    destruct (Put_spec x w) as (w6 & HP' & Hin' & Hmono) end.
  rewrite HP' in Hok. simplify_eq. intros [= <- <- <-]. simpl.
  split_and!; try done.
  apply Hmono. by rewrite Hb.
Qed.
End MutatorFacts.

(** ** A successful [insert] in the model *)

Section ChainSplit.
Context {E : Type -> Type} {S A : Type} (h : handler E S) (f : step E S -> option A).

(** A call seen in a projection of the trace was answered by the
    handler, in the state the calls before it left. *)
Lemma chain_omap_split (s : S) (tr : list (step E S)) (a : A) (ops1 ops2 : list A) :
  chain h s tr ->
  omap f tr = ops1 ++ a :: ops2 ->
  exists tr1 st tr2,
    tr = tr1 ++ st :: tr2 /\ omap f tr1 = ops1 /\ f st = Some a /\ omap f tr2 = ops2
    /\ h _ (step_call st) (final s tr1) = (step_resp st, step_post st).
Proof.
  revert s ops1. induction tr as [| st tr IH]; intros s ops1 Hc Hops.
  - by destruct ops1.
  - destruct Hc as [He Hc].
    change (omap f (st :: tr))
      with (match f st with Some b => b :: omap f tr | None => omap f tr end) in Hops.
    destruct (f st) as [b |] eqn:Hf.
    + destruct ops1 as [| b' ops1]; simplify_eq/=.
      * exists [], st, tr. by rewrite Hf.
      * destruct (IH _ _ Hc H0) as (tr1 & st' & tr2 & -> & <- & Hst & <- & Hh).
        exists (st :: tr1), st', tr2. simpl. by rewrite Hf.
    + destruct (IH _ _ Hc Hops) as (tr1 & st' & tr2 & -> & <- & Hst & <- & Hh).
      exists (st :: tr1), st', tr2. simpl. by rewrite Hf.
Qed.
End ChainSplit.

Section ModelInsert.
Variable c : Model.Collaborators.
Variables (UmociMetaVersion ISO8601 : string) (ctx : Insert.Context).

(** In the model, a run of [insert] that returns nil opened the mutator
    on the blobs of the initial store, added one layer, committed, and
    pointed the tag at the root of the new walk. *)
Lemma model_insert_success (w : Model.Store) tr :
  run (Model.insert_handler c) (Insert.insert UmociMetaVersion ISO8601 ctx) w = (None, tr) ->
  exists src m0 r hist m2 path,
    insert_committed c w tr (Insert.image_tag ctx) src m0 r hist m2 path
    /\ EmptyLayer hist = false.
Proof.
  intros Hrun.
  pose proof (run_chain (Model.insert_handler c) (Insert.insert UmociMetaVersion ISO8601 ctx) w)
    as Hc.
  rewrite Hrun in Hc. simpl in Hc.
  pose proof (insert_run_ops _ _ _ _ _ _ _ Hrun) as Hops. simpl in Hops.
  destruct Hops as [(err & ? & _) | (src & [(err & ? & _) | (m & [(err & ? & _) |
    (r & hist & m1 & [(err & ? & _) | (m2 & [(err & ? & _) | (path &
      [(err & ? & _) | (_ & Hops)])])] & Hempty)])])]; try done.
  unfold insert_ops in Hops. clear Hrun.
  (* the call to [Add] *)
  destruct (chain_omap_split _ _ _ _ _ [_] _ Hc Hops)
    as (tr3 & [X2 e2 x2 s2] & tr4 & _ & _ & Hadd & _ & Hh2).
  destruct e2; try discriminate Hadd. simpl in Hadd, Hh2.
  injection Hadd as -> -> -> ->. injection Hh2 as <- _.
  (* the call to [Commit] *)
  destruct (chain_omap_split _ _ _ _ _ [_; _] _ Hc Hops)
    as (tr5 & [X3 e3 x3 s3] & tr6 & _ & _ & Hcommit & _ & Hh3).
  destruct e3; try discriminate Hcommit. simpl in Hcommit, Hh3.
  injection Hcommit as -> ->.
  (* the call to [mutate.New] *)
  destruct (chain_omap_split _ _ _ _ _ [] _ Hc Hops)
    as (tr1 & [X1 e1 x1 s1] & tr2 & -> & Hpre & Hnew & _ & Hh1).
  destruct e1; try discriminate Hnew. simpl in Hnew, Hh1.
  injection Hnew as -> ->.
  destruct (io_inv _ _ _ _ _ Hh1) as [(e & ? & _) | (w0 & Hb0 & _ & Hnew)]; [done |].
  injection Hnew as Hnew _.
  assert (Hblobs : Model.blobs (final w tr1) = Model.blobs w).
  { pose proof Hc as Hc'. apply chain_app in Hc' as [Hc1 _].
    apply (insert_no_write _ _ _ (model_insert_contract c) w tr1 Hc1).
    - unfold insert_ops. rewrite Hpre. constructor.
    - apply final_states. }
  exists src, m, r, hist, m2, path. split; [| done].
  exists w0, (final w tr5), s3.
  split_and!; try done.
  - congruence.
  - rewrite (insert_refs_replay _ _ _ (model_insert_contract c) _ _ Hc).
    unfold insert_ops. by rewrite Hops.
Qed.
End ModelInsert.

(** ** The fault schedule along a run of [repack] in the model *)

Section ModelFaults.
Variable c : Model.Collaborators.

(** A store operation uses up at most the head of the fault schedule, and
    what it has not used up is handed on unchanged. *)
Lemma io_faults {A : Type} (w w1 : Model.Store) (fail : error -> A)
    (ok : Model.Store -> A * Model.Store) (x : A) :
  (forall w0, Model.faults (ok w0).2 = Model.faults w0) ->
  Model.io w fail ok = (x, w1) ->
  Model.faults w1 `suffix_of` Model.faults w.
Proof.
  intros Hok. unfold Model.io.
  destruct (Model.faults w) as [| [err |] fs] eqn:Hfs; intros Hio.
  - pose proof (Hok w) as H. rewrite Hio in H. simpl in H. by rewrite H, Hfs.
  - simplify_eq. simpl. by apply suffix_cons_r.
  - pose proof (Hok (Model.set_faults fs w)) as H. rewrite Hio in H. simpl in H.
    rewrite H. by apply suffix_cons_r.
Qed.

Lemma Put_faults content w : Model.faults (Model.Put c content w).2 = Model.faults w.
Proof. unfold Model.Put. by destruct (Model.blobs w !! _). Qed.

Lemma repack_handler_faults X (e : Repack.call X) (w : Model.Store) :
  Model.faults (Model.repack_handler c X e w).2 `suffix_of` Model.faults w.
Proof.
  destruct e; simpl; try done.
  all: destruct (Model.io w _ _) as [x w1] eqn:Hio; simpl.
  all: apply (io_faults _ _ _ _ _) in Hio; [done |]; intros w0; simpl; try done.
  all: match goal with |- context [Model.Put c ?x ?w] =>
         pose proof (Put_faults x w) as HP; destruct (Model.Put c x w) as [[? ?] ?] end.
  all: done.
Qed.

Lemma chain_faults (w : Model.Store) (tr : list (step Repack.call Model.Store)) :
  chain (Model.repack_handler c) w tr ->
  Model.faults (final w tr) `suffix_of` Model.faults w.
Proof.
  revert w. induction tr as [| [X e x w1] tr IH]; intros w; [done |].
  intros [He Hc]. simpl in He, Hc. simpl.
  etrans; [by apply IH |].
  pose proof (repack_handler_faults X e w) as Hs. by rewrite He in Hs.
Qed.

(** In the model [DeleteReference] has one way to fail: the I/O fault at
    the head of the schedule. *)
Lemma DeleteReference_result (w w' : Model.Store) (engine : Engine) (name : string)
    (x : option error) :
  Model.repack_handler c _ (Repack.engine_DeleteReference engine name) w = (x, w') ->
  match x with
  | Some err => Some err ∈ Model.faults w
  | None => Model.refs w' = delete name (Model.refs w) /\ Model.blobs w' = Model.blobs w
  end.
Proof.
  simpl. unfold Model.io.
  destruct (Model.faults w) as [| [err |] fs]; intros [= <- <-]; try done.
  apply list_elem_of_here.
Qed.
End ModelFaults.


(** * The claims *)

(** A run is the pair of what it returns and its trace. *)
Lemma run_eta {E : Type -> Type} {S R : Type} (h : handler E S) (p : Prog E R) (s : S) :
  run h p s = ((run h p s).1, (run h p s).2).
Proof. apply surjective_pairing. Defined.

Ltac elem_cases H :=
  repeat first
    [ apply elem_of_nil in H; destruct H
    | apply elem_of_cons in H as [H | H]; [simplify_eq |] ].

Lemma nonempty_history_app (hs : list History) (h : History) :
  EmptyLayer h = false -> nonempty_history (hs ++ [h]) = nonempty_history hs ++ [h].
Proof.
  intros Hh. unfold nonempty_history. rewrite filter_app. f_equal.
  rewrite filter_cons_True by done. done.
Qed.

(** ** C1: what a failed or interrupted mutation leaves of the references *)




(** ** C2: errors of the blob writes and decodes *)

(** C2 at its failing input.  On the example store, when the manifest
    write (the seventh store operation) meets an I/O error, [repack]
    without a tag returns nil although the last blob write reported the
    error; with [--tag latest] it also returns nil, after pointing
    [latest] at a descriptor with the empty digest, under which the store
    holds no blob. *)
Theorem repack_swallows_manifest_write_error :
  (let r := Example.run_repack "" (Example.fail_after 6) in
   r.1 = None
   /\ (exists manifest,
         last (blob_writes r.2)
         = Some (Model.JSON (JSONManifest manifest), ("", -1, Some Example.disk_full))))
  /\
  (let r := Example.run_repack "latest" (Example.fail_after 6) in
   r.1 = None
   /\ Model.refs (final (Example.store (Example.fail_after 6)) r.2) !! "latest"
      = Some {| MediaType := MediaTypeImageManifest; Digest := ""; Size := -1 |}
   /\ Model.blobs (final (Example.store (Example.fail_after 6)) r.2) !! "" = None).
Proof.
  split.
  - split; [by vm_compute |]. eexists. by vm_compute.
  - split_and!; by vm_compute.
Qed.

(** ** C3: diffIDs, layers and history entries after a mutation *)

(** C3, as amended.  A run of [repack] that returns nil wrote a config and
    a manifest whose diffIDs and layers are those of the base with the new
    layer's digest and descriptor appended, and whose history is the
    base's: when the three counts agree on the base, diffIDs and layers
    still agree and the non-empty history entries are one short.  A run of
    [insert] that returns nil, on the model store, committed a config and
    a manifest whose diffIDs, layers and non-empty history entries are
    those of the base with one entry appended to each, in the base's
    order: when the three counts agree on the base they agree after. *)
Theorem layer_counts_after_mutation :
  (forall (S : Type) (h : handler Repack.call S) (rootfsName : string)
          (ctx : gmap string string) (s : S) (tr : list (step Repack.call S)),
     run h (Repack.repack rootfsName ctx) s = (None, tr) ->
     exists manifest config ld ls cd cs,
       repack_wrote tr manifest config ld ls cd cs
       /\ let config' := repack_config config ld in
          let manifest' := repack_manifest manifest ld ls cd cs in
          DiffIDs (rootfs config') = DiffIDs (rootfs config) ++ [ld]
          /\ Layers manifest'
             = Layers manifest ++ [ {| MediaType := MediaTypeImageLayer; Digest := ld; Size := ls |} ]
          /\ nonempty_history (history config') = nonempty_history (history config)
          /\ (length (DiffIDs (rootfs config)) = length (Layers manifest) ->
              length (Layers manifest) = length (nonempty_history (history config)) ->
              length (DiffIDs (rootfs config')) = length (Layers manifest')
              /\ length (Layers manifest') = Datatypes.S (length (nonempty_history (history config')))))
  /\
  (forall (c : Model.Collaborators) (UmociMetaVersion ISO8601 : string)
          (ctx : Insert.Context) (w : Model.Store) (tr : list (step Insert.call Model.Store)),
     run (Model.insert_handler c) (Insert.insert UmociMetaVersion ISO8601 ctx) w = (None, tr) ->
     exists src m0 r hist m2 path,
       insert_committed c w tr (Insert.image_tag ctx) src m0 r hist m2 path
       /\ DiffIDs (rootfs (config m2))
          = DiffIDs (rootfs (config m0)) ++ [Model.diffid_of c (reader_bytes r)]
       /\ Layers (manifest m2) = Layers (manifest m0) ++ [Model.layer_descriptor c r]
       /\ nonempty_history (history (config m2))
          = nonempty_history (history (config m0)) ++ [hist]
       /\ (length (DiffIDs (rootfs (config m0))) = length (Layers (manifest m0)) ->
           length (Layers (manifest m0)) = length (nonempty_history (history (config m0))) ->
           length (DiffIDs (rootfs (config m2))) = length (Layers (manifest m2))
           /\ length (Layers (manifest m2)) = length (nonempty_history (history (config m2))))).
Proof.
  split.
  - intros S h rootfsName ctx s tr Hrun.
    pose proof (repack_success h _ _ _ _ Hrun) as Hkinds.
    destruct (repack_writes h _ _ _ _ _ Hrun Hkinds) as (m & cfg & ld & ls & cd & cs & Hw).
    exists m, cfg, ld, ls, cd, cs. split; [done |]. simpl.
    split_and!; try done.
    intros H1 H2. rewrite !length_app. simpl. lia.
  - intros c U I ctx w tr Hrun.
    destruct (model_insert_success c _ _ _ _ _ Hrun)
      as (src & m0 & r & hist & m2 & path & Hcommitted & Hempty).
    exists src, m0, r, hist, m2, path. split; [done |].
    destruct Hcommitted as (w0 & w1 & w2 & _ & _ & Hcommit & _ & _).
    destruct (Commit_ok c _ _ _ _ _ Hcommit) as (Hcfg & Hlayers & _).
    rewrite Hcfg, Hlayers. simpl.
    rewrite (nonempty_history_app _ _ Hempty).
    split_and!; try done.
    intros H1 H2. rewrite !length_app. simpl. lia.
Qed.

(** C3, as amended, on the example store: [repack --tag v2] and [insert]
    into [latest], both without I/O errors. *)
Lemma layer_counts_after_mutation_witness :
  (let r := Example.run_repack "v2" [] in
   r.1 = None
   /\ exists manifest config ld ls cd cs,
        repack_wrote r.2 manifest config ld ls cd cs
        /\ nonempty_history (history (repack_config config ld))
           = nonempty_history (history config))
  /\
  (let r := Example.run_insert "latest" ∅ [] in
   r.1 = None
   /\ exists src m0 reader hist m2 path,
        insert_committed Example.collaborators (Example.store []) r.2 "latest"
          src m0 reader hist m2 path
        /\ nonempty_history (history (config m2))
           = nonempty_history (history (config m0)) ++ [hist]).
Proof.
  destruct layer_counts_after_mutation as [Hrepack Hinsert]. split.
  - intros r.
    assert (Hres : r.1 = None) by (vm_compute; reflexivity).
    split; [exact Hres |].
    destruct (Hrepack _ (Model.repack_handler Example.collaborators) "rootfs"
                (Example.repack_ctx "v2") (Example.store []) r.2)
      as (m & cfg & ld & ls & cd & cs & Hw & _ & _ & Hhist & _).
    { rewrite <- Hres. apply run_eta. }
    by exists m, cfg, ld, ls, cd, cs.
  - intros r.
    assert (Hres : r.1 = None) by (vm_compute; reflexivity).
    split; [exact Hres |].
    destruct (Hinsert Example.collaborators "2" "2006-01-02T15:04:05Z07:00"
                (Example.insert_ctx "latest" ∅) (Example.store []) r.2)
      as (src & m0 & reader & hist & m2 & path & Hc & _ & _ & Hhist & _).
    { rewrite <- Hres. apply run_eta. }
    by exists src, m0, reader, hist, m2, path.
Defined.

(** C3 fails as stated: after [repack --tag v2] on the example store
    returns nil, the manifest and config that [v2] designates have two
    layers and two diffIDs but one history entry. *)
Lemma repack_history_count_falls_behind :
  let w := Example.store [] in
  let r := Example.run_repack "v2" [] in
  r.1 = None
  /\ exists d mblob manifest cblob config,
       Model.refs (final w r.2) !! "v2" = Some d
       /\ Model.GetBlob Example.collaborators d (final w r.2) = Ok mblob
       /\ Data mblob = DataManifest manifest
       /\ Model.GetBlob Example.collaborators (Config manifest) (final w r.2) = Ok cblob
       /\ Data cblob = DataImage config
       /\ length (DiffIDs (rootfs config)) = 2%nat
       /\ length (Layers manifest) = 2%nat
       /\ length (Layers manifest) <> length (nonempty_history (history config)).
Proof.
  split; [by vm_compute |].
  do 5 eexists. split_and!; by vm_compute.
Qed.

(** ** C4: one [Add] followed by [Commit] *)

(** C4, as amended.  On the model store, for every base opened by [New],
    one [Add] of a layer with a history entry followed by a [Commit] that
    succeeds gives a manifest whose layers are the base manifest's with
    the new layer's descriptor appended, and a config whose history is the
    base config's with the entry appended; the walk returned names that
    manifest, which names that config, and both blobs are in the store.
    Every run of [insert] that returns nil is such a sequence of calls on
    the base its tag designates, so the manifest and config it committed
    have the layer's descriptor and the history entry appended.  [repack]
    calls neither [Add] nor [Commit]: every run of it that returns nil, on
    any engine, wrote a manifest whose layers are the base manifest's with
    the new layer's descriptor appended and a config whose history is the
    base config's, with no entry appended. *)
Theorem add_then_commit_appends :
  (forall (c : Model.Collaborators) (src : DescriptorPath) (w w1 w2 : Model.Store)
          (m0 m2 : Mutator) (r : Reader) (hist : History) (path : DescriptorPath),
     Model.New c src w = Ok m0 ->
     Model.Commit c (Model.Add c m0 r hist) w1 = (m2, Ok path, w2) ->
     (exists mblob cblob,
        Model.GetBlob c (Descriptor_ src) w = Ok mblob
        /\ Data mblob = DataManifest (manifest m0)
        /\ Model.GetBlob c (Config (manifest m0)) w = Ok cblob
        /\ Data cblob = DataImage (config m0))
     /\ Layers (manifest m2) = Layers (manifest m0) ++ [Model.layer_descriptor c r]
     /\ history (config m2) = history (config m0) ++ [hist]
     /\ Digest (Descriptor_ path) = Model.digest_of c (Model.JSON (JSONManifest (manifest m2)))
     /\ Digest (Config (manifest m2)) = Model.digest_of c (Model.JSON (JSONImage (config m2)))
     /\ is_Some (Model.blobs w2 !! Digest (Descriptor_ path))
     /\ is_Some (Model.blobs w2 !! Digest (Config (manifest m2))))
  /\
  (forall (c : Model.Collaborators) (UmociMetaVersion ISO8601 : string)
          (ctx : Insert.Context) (w : Model.Store) (tr : list (step Insert.call Model.Store)),
     run (Model.insert_handler c) (Insert.insert UmociMetaVersion ISO8601 ctx) w = (None, tr) ->
     exists src m0 r hist m2 path,
       insert_committed c w tr (Insert.image_tag ctx) src m0 r hist m2 path
       /\ Layers (manifest m2) = Layers (manifest m0) ++ [Model.layer_descriptor c r]
       /\ history (config m2) = history (config m0) ++ [hist])
  /\
  (forall (S : Type) (h : handler Repack.call S) (rootfsName : string)
          (ctx : gmap string string) (s : S) (tr : list (step Repack.call S)),
     run h (Repack.repack rootfsName ctx) s = (None, tr) ->
     exists manifest config ld ls cd cs,
       repack_wrote tr manifest config ld ls cd cs
       /\ Layers (repack_manifest manifest ld ls cd cs)
          = Layers manifest ++ [ {| MediaType := MediaTypeImageLayer; Digest := ld; Size := ls |} ]
       /\ history (repack_config config ld) = history config).
Proof.
  split_and!.
  - intros c src w w1 w2 m0 m2 r hist path Hnew Hcommit.
    destruct (New_ok c _ _ _ Hnew) as (_ & _ & mblob & cblob & Hbase).
    destruct (Commit_ok c _ _ _ _ _ Hcommit) as (Hcfg & Hlayers & Hconfig & -> & Hin1 & Hin2).
    split; [by exists mblob, cblob |].
    rewrite Hcfg, Hlayers, Hconfig. simpl. split_and!; try done.
    by rewrite Hconfig in Hin1.
  - intros c U I ctx w tr Hrun.
    destruct (model_insert_success c _ _ _ _ _ Hrun)
      as (src & m0 & r & hist & m2 & path & Hcommitted & _).
    exists src, m0, r, hist, m2, path. split; [done |].
    destruct Hcommitted as (w0 & w1 & w2 & _ & _ & Hcommit & _ & _).
    destruct (Commit_ok c _ _ _ _ _ Hcommit) as (Hcfg & Hlayers & _).
    rewrite Hcfg, Hlayers. done.
  - intros S h rootfsName ctx s tr Hrun.
    pose proof (repack_success h _ _ _ _ Hrun) as Hkinds.
    destruct (repack_writes h _ _ _ _ _ Hrun Hkinds) as (m & cfg & ld & ls & cd & cs & Hw).
    by exists m, cfg, ld, ls, cd, cs.
Qed.

(** C4, as amended, on the example store: the mutator opened on the base
    image, one [Add], one [Commit]; [insert] into [latest] and
    [repack --tag v2], both without I/O errors and both returning nil. *)
Lemma add_then_commit_appends_witness :
  (let c := Example.collaborators in
   let w := Example.store [] in
   let src := {| Walk_root := Example.dM0; Walk_rest := [] |} in
   let m0 := {| source := src; manifest := Example.M0; config := Example.C0; pending := [] |} in
   let hist := {| Created := Some 1500000000; CreatedBy := "umoci insert"; Author := "";
                  Comment := ""; EmptyLayer := false |} in
   let committed := Model.Commit c (Model.Add c m0 (mkReader "inserted") hist) w in
   let path :=
     {| Walk_root :=
          {| MediaType := MediaTypeImageManifest;
             Digest := Model.digest_of c (Model.JSON (JSONManifest (manifest committed.1.1)));
             Size := 1 |};
        Walk_rest := [] |} in
   Model.New c src w = Ok m0
   /\ committed = (committed.1.1, Ok path, committed.2)
   /\ Layers (manifest committed.1.1)
      = Layers (manifest m0) ++ [Model.layer_descriptor c (mkReader "inserted")]
   /\ history (config committed.1.1) = history (config m0) ++ [hist])
  /\
  (let r := Example.run_insert "latest" ∅ [] in
   r.1 = None
   /\ exists src m0 reader hist m2 path,
        insert_committed Example.collaborators (Example.store []) r.2 "latest"
          src m0 reader hist m2 path
        /\ Layers (manifest m2)
           = Layers (manifest m0) ++ [Model.layer_descriptor Example.collaborators reader]
        /\ history (config m2) = history (config m0) ++ [hist])
  /\
  (let r := Example.run_repack "v2" [] in
   r.1 = None
   /\ exists manifest config ld ls cd cs,
        repack_wrote r.2 manifest config ld ls cd cs
        /\ Layers (repack_manifest manifest ld ls cd cs)
           = Layers manifest ++ [ {| MediaType := MediaTypeImageLayer; Digest := ld; Size := ls |} ]
        /\ history (repack_config config ld) = history config).
Proof.
  destruct add_then_commit_appends as (Hmutator & Hinsert & Hrepack). split_and!.
  - intros c w src m0 hist committed path.
    assert (Hnew : Model.New c src w = Ok m0) by (vm_compute; reflexivity).
    assert (Hcommit : committed = (committed.1.1, Ok path, committed.2))
      by (vm_compute; reflexivity).
    split; [exact Hnew |]. split; [exact Hcommit |].
    destruct (Hmutator c src w w committed.2 m0 committed.1.1 (mkReader "inserted") hist path
                Hnew Hcommit)
      as (_ & Hlayers & Hhistory & _).
    split; [exact Hlayers | exact Hhistory].
  - intros r.
    assert (Hres : r.1 = None) by (vm_compute; reflexivity).
    split; [exact Hres |].
    apply (Hinsert Example.collaborators "2" "2006-01-02T15:04:05Z07:00"
             (Example.insert_ctx "latest" ∅) (Example.store []) r.2).
    rewrite <- Hres. apply run_eta.
  - intros r.
    assert (Hres : r.1 = None) by (vm_compute; reflexivity).
    split; [exact Hres |].
    apply (Hrepack _ (Model.repack_handler Example.collaborators) "rootfs"
             (Example.repack_ctx "v2") (Example.store [])).
    rewrite <- Hres. apply run_eta.
Defined.

(** C4 fails as stated for [repack]: after [repack --tag v2] on the
    example store, whose base image has the manifest [M0] and the config
    [C0], returns nil, the manifest that [v2] designates has the layers of
    [M0] with the new layer's descriptor appended, but the config it names
    has the history of [C0] itself: no history entry was appended. *)
Lemma repack_appends_no_history_entry :
  let w := Example.store [] in
  let r := Example.run_repack "v2" [] in
  r.1 = None
  /\ exists d mblob manifest cblob config,
       Model.refs (final w r.2) !! "v2" = Some d
       /\ Model.GetBlob Example.collaborators d (final w r.2) = Ok mblob
       /\ Data mblob = DataManifest manifest
       /\ Model.GetBlob Example.collaborators (Config manifest) (final w r.2) = Ok cblob
       /\ Data cblob = DataImage config
       /\ Layers manifest
          = Layers Example.M0
            ++ [ {| MediaType := MediaTypeImageLayer; Digest := "sha256:new"; Size := 1 |} ]
       /\ history config = history Example.C0
       /\ ~ (exists hist, history config = history Example.C0 ++ [hist]).
Proof.
  split; [by vm_compute |].
  do 5 eexists. split_and!; try by vm_compute.
  intros [hist Hhist]. vm_compute in Hhist. discriminate Hhist.
Qed.

(** ** C5: the order of the blob writes *)

(** C5, as amended.  In every run of [repack] the blob writes are, in this
    order, a beginning of: the layer blob, the config blob, the manifest
    blob; a run that returns nil made all three.  When all three were
    made, the layer and config writes returned nil, the config written is
    the base config with the layer's digest appended to its diffIDs and
    its history left as it was, and the manifest written is the base
    manifest with the layer's descriptor appended and with the digest and
    size that the config write returned in its config descriptor. *)
Theorem repack_write_order {S : Type} (h : handler Repack.call S)
    (rootfsName : string) (ctx : gmap string string) (s : S)
    (res : option error) (tr : list (step Repack.call S)) :
  run h (Repack.repack rootfsName ctx) s = (res, tr) ->
  map kind_of (blob_writes tr) `prefix_of` [KLayer; KConfig; KManifest]
  /\ (res = None -> map kind_of (blob_writes tr) = [KLayer; KConfig; KManifest])
  /\ (map kind_of (blob_writes tr) = [KLayer; KConfig; KManifest] ->
      exists manifest config ld ls cd cs,
        repack_wrote tr manifest config ld ls cd cs
        /\ DiffIDs (rootfs (repack_config config ld)) = DiffIDs (rootfs config) ++ [ld]
        /\ history (repack_config config ld) = history config
        /\ Layers (repack_manifest manifest ld ls cd cs)
           = Layers manifest ++ [ {| MediaType := MediaTypeImageLayer; Digest := ld; Size := ls |} ]
        /\ Digest (Config (repack_manifest manifest ld ls cd cs)) = cd
        /\ Size (Config (repack_manifest manifest ld ls cd cs)) = cs).
Proof.
  intros Hrun. split_and!.
  - by apply (repack_order h rootfsName ctx s res).
  - intros ->. by apply (repack_success h rootfsName ctx s).
  - intros Hkinds.
    destruct (repack_writes h _ _ _ _ _ Hrun Hkinds) as (m & cfg & ld & ls & cd & cs & Hw).
    exists m, cfg, ld, ls, cd, cs. split_and!; done.
Qed.

(** C5, as amended, on the example store: [repack --tag v2] without I/O
    errors. *)
Lemma repack_write_order_witness :
  let r := Example.run_repack "v2" [] in
  r.1 = None
  /\ map kind_of (blob_writes r.2) = [KLayer; KConfig; KManifest]
  /\ exists manifest config ld ls cd cs, repack_wrote r.2 manifest config ld ls cd cs.
Proof.
  intros r.
  destruct (repack_write_order (Model.repack_handler Example.collaborators)
              "rootfs" (Example.repack_ctx "v2") (Example.store []) r.1 r.2 (run_eta _ _ _))
    as (_ & Hkinds & Hshape).
  assert (Hres : r.1 = None) by (vm_compute; reflexivity).
  split_and!; [exact Hres | exact (Hkinds Hres) |].
  destruct (Hshape (Hkinds Hres)) as (m & cfg & ld & ls & cd & cs & Hw & _).
  by exists m, cfg, ld, ls, cd, cs.
Defined.

(** C5 fails as stated: in the run of [repack --tag v2] on the example
    store, which returns nil, the config blob written does not have the
    base history extended by an entry. *)
Lemma repack_config_history_not_extended :
  let r := Example.run_repack "v2" [] in
  r.1 = None
  /\ ~ (forall config resp,
          (Model.JSON (JSONImage config), resp) ∈ blob_writes r.2 ->
          exists hist, history config = history Example.C0 ++ [hist]).
Proof.
  split; [by vm_compute |].
  intros Hclaim.
  destruct (Hclaim (repack_config Example.C0 "sha256:new")
              (Example.digest_of (Model.JSON (JSONImage (repack_config Example.C0 "sha256:new"))),
               1, None)) as [hist Hhist].
  - vm_compute. apply list_elem_of_further, list_elem_of_here.
  - discriminate Hhist.
Qed.

(** ** C6: the reference must resolve to exactly one descriptor path *)

(** C6.  In every run of [insert], on an engine that keeps the store
    contract, what [ResolveReference] is asked is the tag, and when it
    answers without error: on no path the run returns the error "tag not
    found", on more than one path it returns the error "tag is ambiguous",
    and in both cases the run makes no call to the mutator or to
    [UpdateReference], so that blobs and references are the same in every
    state of the run; on exactly one path the run goes on to open the
    mutator on that path. *)
Theorem insert_single_reference {S : Type} (h : handler Insert.call S)
    (blobs_of : S -> gmap string Model.BlobContent) (refs_of : S -> gmap string Descriptor)
    (UmociMetaVersion ISO8601 : string) (ctx : Insert.Context) (s : S)
    (res : option error) (tr : list (step Insert.call S)) :
  InsertContract h blobs_of refs_of ->
  run h (Insert.insert UmociMetaVersion ISO8601 ctx) s = (res, tr) ->
  let tagName := Insert.image_tag ctx in
  forall name paths, (name, Ok paths) ∈ resolves tr ->
    name = tagName /\
    match paths with
    | [] =>
        res = Some (Errorf ("tag not found: " +:+ tagName)) /\ insert_ops tr = []
        /\ forall s', s' ∈ states s tr -> blobs_of s' = blobs_of s /\ refs_of s' = refs_of s
    | [descriptorPath] =>
        exists r ops, insert_ops tr = OpNew descriptorPath r :: ops
    | _ :: _ :: _ =>
        res = Some (Errorf ("tag is ambiguous: " +:+ tagName)) /\ insert_ops tr = []
        /\ forall s', s' ∈ states s tr -> blobs_of s' = blobs_of s /\ refs_of s' = refs_of s
    end.
Proof.
  intros contract Hrun tagName name paths Hin.
  assert (Hframe : insert_ops tr = [] ->
            forall s', s' ∈ states s tr -> blobs_of s' = blobs_of s /\ refs_of s' = refs_of s).
  { intros Hops. apply (insert_no_write h blobs_of refs_of contract).
    - pose proof (run_chain h (Insert.insert UmociMetaVersion ISO8601 ctx) s) as Hc.
      by rewrite Hrun in Hc.
    - rewrite Hops. constructor. }
  revert Hrun Hin Hframe. subst tagName. unfold Insert.insert. explore h.
  all: intros [<- <-]%pair_equal_spec; cbn.
  all: intros Hin Hframe.
  all: try (apply elem_of_nil in Hin; done).
  all: apply list_elem_of_singleton in Hin; simplify_eq.
  all: split; [reflexivity |].
  all: try (split_and!; [reflexivity | reflexivity | by apply Hframe]).
  all: eauto.
Qed.

(** C6 on the example store: [insert] into a tag that is absent, and into
    a tag that designates a manifest list of two manifests. *)
Lemma insert_single_reference_witness :
  let w := Example.store [] in
  (let r := Example.run_insert "missing" ∅ [] in
   ("missing", Ok []) ∈ resolves r.2
   /\ r.1 = Some (Errorf "tag not found: missing") /\ insert_ops r.2 = []
   /\ forall s', s' ∈ states w r.2 ->
        Model.blobs s' = Model.blobs w /\ Model.refs s' = Model.refs w)
  /\
  (let r := Example.run_insert "multi" ∅ [] in
   r.1 = Some (Errorf "tag is ambiguous: multi") /\ insert_ops r.2 = []).
Proof.
  intros w. split.
  - intros r.
    assert (Hin : ("missing", Ok []) ∈ resolves r.2)
      by (vm_compute; apply list_elem_of_here).
    destruct (insert_single_reference (Model.insert_handler Example.collaborators)
                Model.blobs Model.refs "2" "2006-01-02T15:04:05Z07:00"
                (Example.insert_ctx "missing" ∅) w r.1 r.2
                (model_insert_contract _) (run_eta _ _ _) "missing" [] Hin)
      as (_ & Hres & Hops & Hframe).
    split_and!; [exact Hin | exact Hres | exact Hops | exact Hframe].
  - intros r.
    assert (Hin : ("multi", Ok [ {| Walk_root := Example.dL0; Walk_rest := [Example.dM0] |};
                                 {| Walk_root := Example.dL0;
                                    Walk_rest := [ {| MediaType := MediaTypeImageManifest;
                                                      Digest := "sha256:arm";
                                                      Size := 1 |} ] |} ])
                  ∈ resolves r.2)
      by (vm_compute; apply list_elem_of_here).
    destruct (insert_single_reference (Model.insert_handler Example.collaborators)
                Model.blobs Model.refs "2" "2006-01-02T15:04:05Z07:00"
                (Example.insert_ctx "multi" ∅) w r.1 r.2
                (model_insert_contract _) (run_eta _ _ _) "multi" _ Hin)
      as (_ & Hres & Hops & _).
    split; [exact Hres | exact Hops].
Defined.

(** ** C7: deleting an absent reference *)

(** C7.  On the model store, [DeleteReference] of a name that is absent
    returns nil and leaves references and blobs as they were, in every
    state in which no I/O fault is pending.  So in every run of [repack]
    whose tag is absent from the store, a [DeleteReference] call is for
    the tag and either reports an I/O fault of the store's schedule or
    returns nil, leaves the references as they were, and is followed by
    the [PutReference] of the tag: it never fails for the name being
    absent. *)
Theorem delete_absent_reference (c : Model.Collaborators) :
  (forall (w : Model.Store) (engine : Engine) (name : string),
     Model.refs w !! name = None ->
     Model.fault_pending w = false ->
     exists w',
       Model.repack_handler c _ (Repack.engine_DeleteReference engine name) w = (None, w')
       /\ Model.refs w' = Model.refs w /\ Model.blobs w' = Model.blobs w)
  /\
  (forall (rootfsName : string) (ctx : gmap string string) (w : Model.Store)
          (res : option error) (tr : list (step Repack.call Model.Store))
          (name : string) (x : option error),
     run (Model.repack_handler c) (Repack.repack rootfsName ctx) w = (res, tr) ->
     Model.refs w !! ctx_String ctx "tag" = None ->
     (RefDelete name, x) ∈ ref_writes tr ->
     name = ctx_String ctx "tag"
     /\ match x with
        | Some err => Some err ∈ Model.faults w
        | None =>
            (exists d y, ref_writes tr = [(RefDelete name, None); (RefPut name d, y)])
            /\ exists tr1 engine w' tr2,
                 tr = tr1 ++ Step (Repack.engine_DeleteReference engine name) None w' :: tr2
                 /\ Model.refs w' = Model.refs w
        end).
Proof.
  split.
  - intros w engine name Habsent Hpending.
    destruct (Model.repack_handler c _ (Repack.engine_DeleteReference engine name) w)
      as [x w'] eqn:Hh.
    pose proof (DeleteReference_result c _ _ _ _ _ Hh) as Hres.
    destruct x as [err |].
    + unfold Model.fault_pending in Hpending. simpl in Hh. unfold Model.io in Hh.
      destruct (Model.faults w) as [| [err' |] fs]; simplify_eq.
    + destruct Hres as [Hrefs Hblobs]. exists w'. split_and!; try done.
      by rewrite Hrefs, delete_id.
  - intros rootfsName ctx w res tr name x Hrun Hfresh Hin.
    pose proof (run_chain (Model.repack_handler c) (Repack.repack rootfsName ctx) w) as Hc.
    rewrite Hrun in Hc. simpl in Hc.
    pose proof (repack_ref_writes _ _ _ _ _ _ Hrun) as Hw. simpl in Hw.
    apply list_elem_of_split in Hin as (ops1 & ops2 & Hops).
    destruct (chain_omap_split _ _ _ _ _ _ _ Hc Hops)
      as (tr1 & [X e y w'] & tr2 & Htr & Hpre & Hst & _ & Hh).
    destruct e; try discriminate Hst.
    cbn [step_call step_resp step_post step_X] in Hh.
    simpl in Hst. injection Hst as -> ->.
    pose proof (DeleteReference_result c _ _ _ _ _ Hh) as Hres.
    rewrite Htr in Hc. apply chain_app in Hc as [Hc1 _].
    pose proof (chain_faults c _ _ Hc1) as Hsuffix.
    pose proof (refs_replay _ _ (model_repack_contract c) _ _ Hc1) as Hreplay.
    unfold ref_writes in *. rewrite Hpre in Hreplay. rewrite Hops in Hw.
    assert (Hkept : ops1 = [] -> name = ctx_String ctx "tag" -> x = None ->
              exists tr1 engine w' tr2,
                tr = tr1 ++ Step (Repack.engine_DeleteReference engine name) None w' :: tr2
                /\ Model.refs w' = Model.refs w).
    { intros -> -> ->. exists tr1, engine, w', tr2. split; [done |].
      destruct Hres as [-> _]. rewrite Hreplay. by apply delete_id. }
    destruct Hw as [Hw | [_ [(err & _ & Hw) | [(d & err & _ & Hw) | (d & _ & Hw)]]]].
    + by destruct ops1.
    + destruct ops1 as [| o1 [| o2 l]]; simplify_eq/=.
      split; [done |]. eapply elem_of_suffix; [| done]. done.
    + destruct ops1 as [| o1 [| o2 [| o3 l]]]; simplify_eq/=.
      split; [done |]. split; [by eauto | by apply Hkept].
    + destruct ops1 as [| o1 [| o2 [| o3 l]]]; simplify_eq/=.
      split; [done |]. split; [by eauto | by apply Hkept].
Qed.

(** C7 on the example store: [repack --tag v2], where [v2] is absent. *)
Lemma delete_absent_reference_witness :
  let c := Example.collaborators in
  let w := Example.store [] in
  let ctx := Example.repack_ctx "v2" in
  let r := run (Model.repack_handler c) (Repack.repack "rootfs" ctx) w in
  Model.refs w !! ctx_String ctx "tag" = None
  /\ Model.fault_pending w = false
  /\ (exists w', Model.repack_handler c _ (Repack.engine_DeleteReference (mkEngine "img") "v2") w
                 = (None, w')
                 /\ Model.refs w' = Model.refs w)
  /\ (RefDelete "v2", None) ∈ ref_writes r.2
  /\ exists d y, ref_writes r.2 = [(RefDelete "v2", None); (RefPut "v2" d, y)].
Proof.
  intros c w ctx r.
  destruct (delete_absent_reference c) as [Hdelete Hrepack].
  assert (Habsent : Model.refs w !! ctx_String ctx "tag" = None) by (vm_compute; reflexivity).
  assert (Habsent' : Model.refs w !! "v2" = None) by (vm_compute; reflexivity).
  assert (Hpending : Model.fault_pending w = false) by (vm_compute; reflexivity).
  assert (Hin : (RefDelete "v2", None) ∈ ref_writes r.2)
    by (vm_compute; apply list_elem_of_here).
  split_and!; [exact Habsent | exact Hpending | | exact Hin |].
  - destruct (Hdelete w (mkEngine "img") "v2" Habsent' Hpending) as (w1 & Hh & Hrefs & _).
    exists w1. split; [exact Hh | exact Hrefs].
  - destruct (Hrepack "rootfs" ctx w r.1 r.2 "v2" None (run_eta _ _ _) Habsent Hin)
      as [_ [Hput _]].
    exact Hput.
Defined.

(** ** C8: [repack] without [--tag] *)

(** In every run of [repack] with an empty [--tag], on an engine that
    keeps the reference contract: no reference write is made, the
    references are the same in every state of the run, and the run returns
    nil exactly when it called the layer, config and manifest writes, of
    which the layer and config writes had returned nil.  What the manifest
    write answered is not looked at. *)
Lemma repack_untagged_frame {S : Type} (h : handler Repack.call S)
    (refs_of : S -> gmap string Descriptor)
    (rootfsName : string) (ctx : gmap string string) (s : S)
    (res : option error) (tr : list (step Repack.call S)) :
  RepackContract h refs_of ->
  run h (Repack.repack rootfsName ctx) s = (res, tr) ->
  ctx_String ctx "tag" = "" ->
  ref_writes tr = []
  /\ (forall s', s' ∈ states s tr -> refs_of s' = refs_of s)
  /\ (res = None <-> map kind_of (blob_writes tr) = [KLayer; KConfig; KManifest])
  /\ (res = None ->
      exists layer ld ls config' cd cs manifest' mresp,
        blob_writes tr = [ (Model.RawBytes layer, (ld, ls, None));
                           (Model.JSON (JSONImage config'), (cd, cs, None));
                           (Model.JSON (JSONManifest manifest'), mresp) ]).
Proof.
  intros contract Hrun Htag.
  pose proof (repack_tag_empty h _ _ _ _ _ Hrun Htag) as Hrefs.
  split_and!.
  - done.
  - intros s' (tr1 & tr2 & -> & ->)%states_split.
    pose proof (run_chain h (Repack.repack rootfsName ctx) s) as Hc.
    rewrite Hrun in Hc. simpl in Hc. apply chain_app in Hc as [Hc _].
    rewrite (refs_replay h refs_of contract _ _ Hc).
    unfold ref_writes in Hrefs. rewrite omap_app in Hrefs.
    apply app_eq_nil in Hrefs as [Hrefs _]. unfold ref_writes. by rewrite Hrefs.
  - by apply (repack_untagged_result h rootfsName ctx s).
  - intros ->.
    pose proof (repack_success h _ _ _ _ Hrun) as Hkinds.
    destruct (repack_writes h _ _ _ _ _ Hrun Hkinds)
      as (m & cfg & ld & ls & cd & cs & fd & mb & cb & layer & mresp & _ & _ & _ & Hw).
    rewrite Hw. by do 8 eexists.
Qed.

(** On the example store, [repack] without [--tag] and without I/O errors
    returns nil, has written the layer, the config and the manifest, and
    leaves the references as they were. *)
Lemma repack_untagged_example :
  let w := Example.store [] in
  let r := Example.run_repack "" [] in
  r.1 = None
  /\ (exists layer ld ls config' cd cs manifest' md ms,
        blob_writes r.2 = [ (Model.RawBytes layer, (ld, ls, None));
                            (Model.JSON (JSONImage config'), (cd, cs, None));
                            (Model.JSON (JSONManifest manifest'), (md, ms, None)) ]
        /\ Model.blobs (final w r.2) !! ld = Some (Model.RawBytes layer)
        /\ Model.blobs (final w r.2) !! cd = Some (Model.JSON (JSONImage config'))
        /\ Model.blobs (final w r.2) !! md = Some (Model.JSON (JSONManifest manifest')))
  /\ Model.refs (final w r.2) = Model.refs w.
Proof.
  split_and!; [by vm_compute | | by vm_compute].
  do 9 eexists. split_and!; by vm_compute.
Qed.

(** C8 at its failing input.  On the example store, when the manifest
    write (the seventh store operation) meets an I/O error, [repack]
    without [--tag] returns nil after the layer and config writes, which
    are in the store, and after a manifest write that reported the error:
    the manifest it built is not in the store.  The references are as they
    were. *)
Theorem repack_untagged_success_without_manifest :
  let w := Example.store (Example.fail_after 6) in
  let r := Example.run_repack "" (Example.fail_after 6) in
  ctx_String (Example.repack_ctx "") "tag" = ""
  /\ r.1 = None
  /\ (exists layer ld ls config' cd cs manifest',
        blob_writes r.2 = [ (Model.RawBytes layer, (ld, ls, None));
                            (Model.JSON (JSONImage config'), (cd, cs, None));
                            (Model.JSON (JSONManifest manifest'),
                             ("", -1, Some Example.disk_full)) ]
        /\ Model.blobs (final w r.2) !! ld = Some (Model.RawBytes layer)
        /\ Model.blobs (final w r.2) !! cd = Some (Model.JSON (JSONImage config'))
        /\ Model.blobs (final w r.2)
             !! Example.digest_of (Model.JSON (JSONManifest manifest')) = None
        /\ Model.blobs (final w r.2) !! "" = None)
  /\ Model.refs (final w r.2) = Model.refs w.
Proof.
  split_and!; [by vm_compute | by vm_compute | | by vm_compute].
  do 7 eexists. split_and!; by vm_compute.
Qed.

(** ** C9: the mandatory flags *)

(** C9.  When [--image], [--bundle] or [--from] is empty, [repack] is the
    program that returns an error without a single call: on every engine
    its run has no step, not even [cas.Open]. *)
Theorem repack_mandatory_flags (rootfsName : string) (ctx : gmap string string) :
  ctx_String ctx "image" = "" \/ ctx_String ctx "bundle" = "" \/ ctx_String ctx "from" = "" ->
  exists err,
    Repack.repack rootfsName ctx = Ret (Some err)
    /\ forall (S : Type) (h : handler Repack.call S) (s : S),
         run h (Repack.repack rootfsName ctx) s = (Some err, []).
Proof.
  intros Hflag. unfold Repack.repack.
  destruct (decide (ctx_String ctx "image" = "")) as [| Himage]; [by eexists |].
  destruct (decide (ctx_String ctx "bundle" = "")) as [| Hbundle]; [by eexists |].
  destruct (decide (ctx_String ctx "from" = "")) as [| Hfrom]; [by eexists |].
  by destruct Hflag as [? | [? | ?]].
Qed.

(** C9 at a command line without [--image]. *)
Lemma repack_mandatory_flags_witness :
  ctx_String (<["bundle" := "bundle"]> (<["from" := "latest"]> ∅)) "image" = ""
  /\ exists err,
       Repack.repack "rootfs" (<["bundle" := "bundle"]> (<["from" := "latest"]> ∅))
       = Ret (Some err).
Proof.
  split; [reflexivity |].
  destruct (repack_mandatory_flags "rootfs" (<["bundle" := "bundle"]> (<["from" := "latest"]> ∅)))
    as (err & Hret & _).
  - left. reflexivity.
  - by exists err.
Defined.

(** ** C10: the history entry of [insert] *)

(** C10.  In every run of [insert], on an engine that keeps the store
    contract, a history entry passed to [Mutator.Add] has [EmptyLayer]
    false, has [CreatedBy] "umoci insert" unless [--history.created_by]
    gives another, and has [Created] the time [time.Now] returned unless
    [--history.created] is given, in which case it is that value parsed.
    When the parse fails, the run returns the parse error wrapped as
    "parsing --history.created" and makes no call to [Add], [Commit] or
    [UpdateReference], so that blobs and references are the same in every
    state of the run. *)
Theorem insert_history_entry {S : Type} (h : handler Insert.call S)
    (blobs_of : S -> gmap string Model.BlobContent) (refs_of : S -> gmap string Descriptor)
    (UmociMetaVersion ISO8601 : string) (ctx : Insert.Context) (s : S)
    (res : option error) (tr : list (step Insert.call S)) :
  InsertContract h blobs_of refs_of ->
  run h (Insert.insert UmociMetaVersion ISO8601 ctx) s = (res, tr) ->
  (forall m r hist x, OpAdd m r hist x ∈ insert_ops tr ->
     EmptyLayer hist = false
     /\ CreatedBy hist = default "umoci insert" (Insert.Metadata ctx !! "--history.created_by")
     /\ match Insert.Metadata ctx !! "--history.created" with
        | None => exists now, clock_ops tr = [OpNow now] /\ Created hist = Some now
        | Some value =>
            exists now t, clock_ops tr = [OpNow now; OpParse ISO8601 value (Ok t)]
                          /\ Created hist = Some t
        end)
  /\ (forall layout value err, OpParse layout value (Fail err) ∈ clock_ops tr ->
        layout = ISO8601
        /\ Insert.Metadata ctx !! "--history.created" = Some value
        /\ res = Some (Wrap err "parsing --history.created")
        /\ Forall (fun op => is_write op = false) (insert_ops tr)
        /\ forall s', s' ∈ states s tr -> blobs_of s' = blobs_of s /\ refs_of s' = refs_of s).
Proof.
  intros contract Hrun.
  assert (Hframe : Forall (fun op => is_write op = false) (insert_ops tr) ->
            forall s', s' ∈ states s tr -> blobs_of s' = blobs_of s /\ refs_of s' = refs_of s).
  { apply (insert_no_write h blobs_of refs_of contract).
    pose proof (run_chain h (Insert.insert UmociMetaVersion ISO8601 ctx) s) as Hc.
    by rewrite Hrun in Hc. }
  revert Hrun Hframe. unfold Insert.insert. explore h.
  all: intros [<- <-]%pair_equal_spec; cbn.
  all: intros Hframe; split.
  all: try (intros m' r' hist x' Hin; elem_cases Hin; cbn; split_and!; by eauto).
  all: intros layout value err' Hin; elem_cases Hin.
  all: split_and!;
         [done | done | done | by repeat constructor | apply Hframe; by repeat constructor].
Qed.

(** C10 on the example store: [insert] with a [--history.created] that
    does not parse, and with a [--history.created_by]. *)
Lemma insert_history_entry_witness :
  (let r := Example.run_insert "latest" {["--history.created" := "yesterday"]} [] in
   OpParse "2006-01-02T15:04:05Z07:00" "yesterday" (Fail (Errorf "parsing time")) ∈ clock_ops r.2
   /\ r.1 = Some (Wrap (Errorf "parsing time") "parsing --history.created")
   /\ Forall (fun op => is_write op = false) (insert_ops r.2))
  /\
  (let r := Example.run_insert "latest" {["--history.created_by" := "me"]} [] in
   exists m reader hist x,
     OpAdd m reader hist x ∈ insert_ops r.2
     /\ EmptyLayer hist = false /\ CreatedBy hist = "me"
     /\ Created hist = Some 1500000000).
Proof.
  split.
  - intros r.
    assert (Hin : OpParse "2006-01-02T15:04:05Z07:00" "yesterday" (Fail (Errorf "parsing time"))
                  ∈ clock_ops r.2)
      by (vm_compute; apply list_elem_of_further, list_elem_of_here).
    destruct (insert_history_entry (Model.insert_handler Example.collaborators)
                Model.blobs Model.refs "2" "2006-01-02T15:04:05Z07:00"
                (Example.insert_ctx "latest" {["--history.created" := "yesterday"]})
                (Example.store []) r.1 r.2 (model_insert_contract _) (run_eta _ _ _))
      as [_ Hparse].
    destruct (Hparse _ _ _ Hin) as (_ & _ & Hres & Hops & _).
    split_and!; [exact Hin | exact Hres | exact Hops].
  - intros r.
    destruct (insert_history_entry (Model.insert_handler Example.collaborators)
                Model.blobs Model.refs "2" "2006-01-02T15:04:05Z07:00"
                (Example.insert_ctx "latest" {["--history.created_by" := "me"]})
                (Example.store []) r.1 r.2 (model_insert_contract _) (run_eta _ _ _))
      as [Hadd _].
    destruct (insert_ops r.2) as [| op1 [| [src res | m reader hist x | m res | name d res] ops]] eqn:Hops;
      try (vm_compute in Hops; discriminate Hops).
    destruct (Hadd m reader hist x) as (Hempty & Hby & Hcreated).
    { apply list_elem_of_further, list_elem_of_here. }
    exists m, reader, hist, x.
    split_and!; [apply list_elem_of_further, list_elem_of_here | exact Hempty | exact Hby |].
    destruct Hcreated as (now & Hclock & Hnow).
    rewrite Hnow. vm_compute in Hclock. by injection Hclock as <-.
Defined.


(** * How the two commands use what they call *)

(** ** The [Before] hook of [insert] *)

(** The hook returns nil exactly on two positional arguments that are
    both non-empty. *)
Theorem Before_accepts (args : list string) (Metadata : gmap string string) :
  (insertCommand_Before args Metadata).1 = None
  <-> exists file path, args = [file; path] /\ file <> "" /\ path <> "".
Proof.
  unfold insertCommand_Before. split.
  - repeat case_decide; simpl; try done. intros _.
    destruct args as [| file [| path [| ? ?]]]; simplify_eq/=.
    by exists file, path.
  - intros (file & path & -> & Hf & Hp). simpl.
    repeat case_decide; simplify_eq/=; done.
Qed.

(** Whatever it returns, the hook leaves every entry of the metadata
    other than [insertFile] and [insertPath] as it was; when it returns
    nil the two entries hold the first and the second argument; when it
    returns an error [insertPath] is as it was. *)
Theorem Before_metadata (args : list string) (Metadata : gmap string string) :
  let r := insertCommand_Before args Metadata in
  (forall key, key <> "insertFile" -> key <> "insertPath" -> r.2 !! key = Metadata !! key)
  /\ (r.1 = None ->
      r.2 !! "insertFile" = args !! 0%nat /\ r.2 !! "insertPath" = args !! 1%nat)
  /\ (r.1 <> None -> r.2 !! "insertPath" = Metadata !! "insertPath").
Proof.
  unfold insertCommand_Before.
  destruct args as [| file [| path [| ? ?]]]; simpl.
  all: repeat case_decide; simplify_eq/=; split_and!; try done.
  all: intros; by simplify_map_eq.
Qed.

(** A non-empty [<file>] with an empty [<path>] is refused only after
    [insertFile] has been stored: the hook returns the error and the
    metadata already holds the file. *)
Theorem Before_empty_path_stores_file (file : string) (Metadata : gmap string string) :
  file <> "" ->
  insertCommand_Before [file; ""] Metadata
  = (Some (Errorf "<path> cannot be empty"), <["insertFile" := file]> Metadata).
Proof.
  intros Hf. unfold insertCommand_Before. simpl.
  repeat case_decide; simplify_eq/=; done.
Qed.

Lemma Before_empty_path_stores_file_witness :
  insertCommand_Before ["file"; ""] ∅
  = (Some (Errorf "<path> cannot be empty"), <["insertFile" := "file"]> ∅).
Proof.
  apply (Before_empty_path_stores_file "file" ∅). discriminate.
Defined.

(** After the hook has returned nil on metadata that names the image and
    the tag, [insert] finds the four entries it asserts, the image and the
    tag being those of the metadata, and on every engine the layer it
    generates is of the first argument at the second. *)
Theorem Before_then_insert {S : Type} (h : handler Insert.call S)
    (UmociMetaVersion ISO8601 : string) (args : list string)
    (Metadata : gmap string string) (s : S) :
  (insertCommand_Before args Metadata).1 = None ->
  is_Some (Metadata !! "--image-path") ->
  is_Some (Metadata !! "--image-tag") ->
  exists ctx,
    insert_Context (insertCommand_Before args Metadata).2 = Some ctx
    /\ Metadata !! "--image-path" = Some (Insert.image_path ctx)
    /\ Metadata !! "--image-tag" = Some (Insert.image_tag ctx)
    /\ args = [Insert.insertFile ctx; Insert.insertPath ctx]
    /\ Forall (fun op =>
                 match op with
                 | LGenerate root target _ _ => args = [root; target]
                 | _ => True
                 end)
              (layer_ops (run h (Insert.insert UmociMetaVersion ISO8601 ctx) s).2).
Proof.
  intros Hok [imagePath Himage] [tagName Htag].
  unfold insertCommand_Before in *.
  repeat case_decide; simplify_eq/=.
  destruct args as [| file [| path [| ? ?]]]; simplify_eq/=.
  exists {| Insert.image_path := imagePath; Insert.image_tag := tagName;
            Insert.insertFile := file; Insert.insertPath := path;
            Insert.Metadata := <["insertPath" := path]> (<["insertFile" := file]> Metadata) |}.
  split_and!; try done.
  - unfold insert_Context.
    set (Metadata' := <["insertPath" := path]> (<["insertFile" := file]> Metadata)).
    assert (Metadata' !! "--image-path" = Some imagePath) as ->
      by (unfold Metadata'; by simplify_map_eq).
    assert (Metadata' !! "--image-tag" = Some tagName) as ->
      by (unfold Metadata'; by simplify_map_eq).
    assert (Metadata' !! "insertFile" = Some file) as ->
      by (unfold Metadata'; by simplify_map_eq).
    assert (Metadata' !! "insertPath" = Some path) as ->
      by (unfold Metadata'; by simplify_map_eq).
    done.
  - unfold Insert.insert. explore h. all: repeat constructor.
Qed.

(** [umoci insert --image img:latest file /path] on the example store. *)
Lemma Before_then_insert_witness :
  let Metadata : gmap string string :=
    <["--image-path" := "img"]> {[ "--image-tag" := "latest" ]} in
  let args := ["file"; "/path"] in
  exists ctx,
    insert_Context (insertCommand_Before args Metadata).2 = Some ctx
    /\ Metadata !! "--image-path" = Some (Insert.image_path ctx)
    /\ Metadata !! "--image-tag" = Some (Insert.image_tag ctx)
    /\ args = [Insert.insertFile ctx; Insert.insertPath ctx]
    /\ Forall (fun op =>
                 match op with
                 | LGenerate root target _ _ => args = [root; target]
                 | _ => True
                 end)
              (layer_ops (run (Model.insert_handler Example.collaborators)
                              (Insert.insert "2" "2006-01-02T15:04:05Z07:00" ctx)
                              (Example.store [])).2).
Proof.
  intros Metadata args.
  apply (Before_then_insert (Model.insert_handler Example.collaborators)
           "2" "2006-01-02T15:04:05Z07:00" args Metadata (Example.store [])).
  - vm_compute. reflexivity.
  - exists "img". vm_compute. reflexivity.
  - exists "latest". vm_compute. reflexivity.
Defined.

(** ** The calls of [repack], on every engine *)

Section RepackCalls.
Context {S : Type} (h : handler Repack.call S).
Variables (rootfsName : string) (ctx : gmap string string).

(** Whatever [repack] opened (the engine, the mtree file, the layer
    stream, the two decoded blobs) it closes before it returns, however
    it returns: its last calls are the [Close] of each, the latest opened
    first and the engine last. *)
Theorem repack_closes_in_reverse (s : S) :
  let tr := (run h (Repack.repack rootfsName ctx) s).2 in
  let opened := omap acquire_of tr in
  map release_of (drop (length tr - length opened)%nat tr) = map Some (rev opened).
Proof.
  unfold Repack.repack. explore h. all: reflexivity.
Qed.

(** The [Close] calls of a run are those last ones and, before them, one
    more [Close] of the layer stream when [PutBlob] returned nil: on those
    runs the stream is closed twice. *)
Theorem repack_closes_reader_twice (s : S) :
  let tr := (run h (Repack.repack rootfsName ctx) s).2 in
  omap release_of tr = omap stored_of tr ++ rev (omap acquire_of tr).
Proof.
  unfold Repack.repack. explore h. all: reflexivity.
Qed.

(** [repack] stops at the first error among those it tests: it returns
    that error as it is and makes no further call but the [Close] calls.
    When no tested call reports an error it returns nil, or an error of
    its own, and then it has not logged a new image nor written a
    reference. *)
Theorem repack_returns_first_error (s : S) :
  let r := run h (Repack.repack rootfsName ctx) s in
  match first_error checked_error_of r.2 with
  | Some (err, rest) => r.1 = Some err /\ only release_of rest = true
  | None =>
      r.1 = None
      \/ exists err, r.1 = Some err /\ ref_writes r.2 = [] /\ omap info_of r.2 = []
  end.
Proof.
  unfold Repack.repack. explore h.
  all: first [ by split | by left | right; by eexists ].
Qed.

(** Every call on an engine is made on the one engine [cas.Open]
    returned. *)
Theorem repack_one_engine (s : S) :
  let tr := (run h (Repack.repack rootfsName ctx) s).2 in
  Forall (fun engine => omap opened_of tr = [engine]) (omap engine_of tr).
Proof.
  unfold Repack.repack. explore h.
  all: repeat constructor.
Qed.

(** What [repack] decodes: nothing; or the descriptor that
    [GetReference] returned for [--from], a manifest by its media type,
    and, when that decodes to a manifest, the config that manifest
    names. *)
Theorem repack_decodes_from_reference (s : S) :
  let tr := (run h (Repack.repack rootfsName ctx) s).2 in
  reads tr = []
  \/ exists d, get_references tr = [(ctx_String ctx "from", Ok d)]
       /\ MediaType d = MediaTypeImageManifest
       /\ ((exists x, reads tr = [(d, x)]
              /\ forall b m, x = Ok b -> Data b <> DataManifest m)
           \/ exists b m x, Data b = DataManifest m
                /\ reads tr = [(d, Ok b); (Config m, x)]).
Proof.
  unfold Repack.repack. explore h.
  all: first [ by left | right; eexists; split_and!; [reflexivity | by apply dec_stable |] ].
  all: first [ right; do 3 eexists; split; [| reflexivity]; eassumption
             | left; eexists; split; [reflexivity |];
               intros ? ? ?; simplify_eq; congruence ].
Qed.

(** Every reference write is on the name given by [--tag], and the
    descriptor put under it is a manifest descriptor with the digest and
    the size that the manifest write, the last blob write, returned. *)
Theorem repack_tags_written_manifest (s : S) :
  let tr := (run h (Repack.repack rootfsName ctx) s).2 in
  Forall (fun w =>
            match w.1 with
            | RefDelete name => name = ctx_String ctx "tag"
            | RefPut name d =>
                name = ctx_String ctx "tag"
                /\ exists m digest size err,
                     last (blob_writes tr)
                     = Some (Model.JSON (JSONManifest m), (digest, size, err))
                     /\ d = {| MediaType := MediaTypeImageManifest;
                               Digest := digest; Size := size |}
            end) (ref_writes tr).
Proof.
  unfold Repack.repack. explore h.
  all: repeat constructor; simpl; eauto 10.
Qed.


(** [repack] reads no flag but the four that [repackCommand] declares:
    two command lines that agree on them run the same program. *)
Theorem repack_reads_declared_flags (ctx' : gmap string string) :
  (forall name, name ∈ repackCommand_Flags -> ctx_String ctx' name = ctx_String ctx name) ->
  Repack.repack rootfsName ctx' = Repack.repack rootfsName ctx.
Proof.
  intros Hflags. unfold Repack.repack.
  rewrite !(Hflags "image"), !(Hflags "bundle"), !(Hflags "from"), !(Hflags "tag");
    [done | unfold repackCommand_Flags; set_solver ..].
Qed.

End RepackCalls.


(** A command line with one more flag, which [repackCommand] does not
    declare. *)
Lemma repack_reads_declared_flags_witness :
  Repack.repack "rootfs" (<["verbose" := "1"]> (Example.repack_ctx "v2"))
  = Repack.repack "rootfs" (Example.repack_ctx "v2").
Proof.
  apply (repack_reads_declared_flags "rootfs" (Example.repack_ctx "v2")).
  intros name Hin. unfold repackCommand_Flags in Hin.
  repeat first
    [ apply elem_of_nil in Hin; destruct Hin
    | apply elem_of_cons in Hin as [-> | Hin]; [vm_compute; reflexivity |] ].
Defined.

(** ** The calls of [insert], on every engine *)

Section InsertCalls.
Context {S : Type} (h : handler Insert.call S).
Variables (UmociMetaVersion ISO8601 : string) (ctx : Insert.Context).

(** The engine and the layer stream are each closed once, as the last
    calls of the run, the stream before the engine, however [insert]
    returns. *)
Theorem insert_closes_in_reverse (s : S) :
  let tr := (run h (Insert.insert UmociMetaVersion ISO8601 ctx) s).2 in
  let opened := omap insert_acquire_of tr in
  omap insert_release_of tr = rev opened
  /\ map insert_release_of (drop (length tr - length opened)%nat tr) = map Some (rev opened).
Proof.
  unfold Insert.insert. explore h. all: by split.
Qed.

(** [insert] stops at the first call that fails, or that resolves the tag
    to no path or to several: it returns that call's error under the name
    of the step (the error of [parseIdmapOptions] as it is) and makes no
    further call but the [Close] calls.  When there is none it returns
    nil. *)
Theorem insert_returns_first_error (s : S) :
  let r := run h (Insert.insert UmociMetaVersion ISO8601 ctx) s in
  match first_error insert_error_of r.2 with
  | Some (err, rest) => r.1 = Some err /\ only insert_release_of rest = true
  | None => r.1 = None
  end.
Proof.
  unfold Insert.insert. explore h. all: first [ by split | done ].
Qed.

(** The history entry given to [Add] has the author and the comment of
    [--history.author] and [--history.comment], each empty when the flag
    is not set. *)
Theorem insert_history_author_comment (s : S) :
  let tr := (run h (Insert.insert UmociMetaVersion ISO8601 ctx) s).2 in
  Forall (fun op =>
            match op with
            | OpAdd _ _ hist _ =>
                Author hist = default "" (Insert.Metadata ctx !! "--history.author")
                /\ Comment hist = default "" (Insert.Metadata ctx !! "--history.comment")
            | _ => True
            end) (insert_ops tr).
Proof.
  unfold Insert.insert.
  destruct (Insert.Metadata ctx !! "--history.author") eqn:Hauthor;
    destruct (Insert.Metadata ctx !! "--history.comment") eqn:Hcomment.
  all: explore h. all: repeat constructor.
Qed.

(** The layer stream: [parseIdmapOptions] is given the metadata with
    [UmociMetaVersion] and no mapping; when it fails [insert] returns its
    error and neither generates a layer nor calls [Add], [Commit] or
    [UpdateReference]; otherwise the layer is generated from the file, at
    the path, with the mapping options [parseIdmapOptions] left, and that
    stream is the one given to [Add]. *)
Theorem insert_layer_stream (s : S) :
  let r := run h (Insert.insert UmociMetaVersion ISO8601 ctx) s in
  let meta := {| Version := UmociMetaVersion; MapOptions := [] |} in
  ((layer_ops r.2 = []
    \/ exists meta' err, layer_ops r.2 = [LIdmap meta ctx (meta', Some err)]
                         /\ r.1 = Some err)
   /\ Forall (fun op => is_write op = false) (insert_ops r.2))
  \/ exists meta' reader,
       layer_ops r.2 = [ LIdmap meta ctx (meta', None);
                         LGenerate (Insert.insertFile ctx) (Insert.insertPath ctx)
                                   (MapOptions meta') reader ]
       /\ Forall (fun op => match op with OpAdd _ r _ _ => r = reader | _ => True end)
                 (insert_ops r.2).
Proof.
  unfold Insert.insert. explore h.
  all: first [ left; split; [first [by left | right; by eauto] | by repeat constructor]
             | right; do 2 eexists; split; [reflexivity | by repeat constructor] ].
Qed.

(** [insert] returns nil exactly when its last log line is the one that
    reports the updated tag. *)
Theorem insert_logs_success (s : S) :
  let r := run h (Insert.insert UmociMetaVersion ISO8601 ctx) s in
  r.1 = None
  <-> last (omap insert_log_of r.2)
      = Some ("updated tag for image manifest: " +:+ Insert.image_tag ctx).
Proof.
  unfold Insert.insert. explore h. all: split; done.
Qed.

(** Every call on an engine is made on the one engine [dir.Open]
    returned. *)
Theorem insert_one_engine (s : S) :
  let tr := (run h (Insert.insert UmociMetaVersion ISO8601 ctx) s).2 in
  Forall (fun engine => omap insert_opened_of tr = [engine]) (omap insert_engine_of tr).
Proof.
  unfold Insert.insert. explore h. all: repeat constructor.
Qed.

End InsertCalls.
